(** * NodeGuard support dashboard: the helper functions of [app.py]

    A shallow embedding of the three helper functions of the dashboard,
    [clean_json_output], [check_rpc_status] and [analyze_issue], and of
    the severity lookup of the bug-report card, together with the library
    calls they are built from ([json.loads], [re.search], [time.time],
    [requests.post], the chat-completion client).

    Conventions of the embedding:
    - a Python [str] is the list of its code points ([pystr]);
    - a Python [float] is an IEEE binary64 value ([spec_float] at
      precision 53, as in the standard library's [SpecFloat]);
    - code that raises is a function into [exn + A]; code that talks to
      the outside world (clock, network, chat service) threads a [World]
      that also keeps the log of the library calls made.

    What the embedding leaves out: the interpreter's recursion limit
    (how deeply a document may be nested before [json.loads] raises
    [RecursionError] depends on the depth of the call stack at that
    moment, which the source does not fix) and interrupts that are not
    [Exception]s ([KeyboardInterrupt], [SystemExit]).  The general
    statements about [clean_json_output] therefore take what
    [json.loads] gives, value or error, as a premise; the decoder is
    evaluated only on the documents written out in this file. *)

From Stdlib Require Import Ascii String.
From Stdlib Require Import List ZArith NArith Bool Lia.
From Stdlib Require Import SpecFloat.
From Stdlib Require DecimalPos.
Import ListNotations.

Open Scope N_scope.

(** ** Python strings *)

(** A [str] is a sequence of Unicode code points. *)
Definition pystr := list N.

Module Str.

(** Decoding of a UTF-8 encoded literal of this file into code points.
    A truncated sequence at the very end of the literal is dropped;
    the literals of this file are well formed. *)
Fixpoint utf8_decode (s : string) : pystr :=
  match s with
  | EmptyString => []
  | String a s1 =>
      let b0 := N_of_ascii a in
      if b0 <? 0x80 then b0 :: utf8_decode s1
      else
        match s1 with
        | EmptyString => []
        | String b s2 =>
            let b1 := N_of_ascii b - 0x80 in
            if b0 <? 0xE0 then ((b0 - 0xC0) * 64 + b1) :: utf8_decode s2
            else
              match s2 with
              | EmptyString => []
              | String c s3 =>
                  let b2 := N_of_ascii c - 0x80 in
                  if b0 <? 0xF0
                  then ((b0 - 0xE0) * 4096 + b1 * 64 + b2) :: utf8_decode s3
                  else
                    match s3 with
                    | EmptyString => []
                    | String d s4 =>
                        let b3 := N_of_ascii d - 0x80 in
                        ((b0 - 0xF0) * 262144 + b1 * 4096 + b2 * 64 + b3)
                          :: utf8_decode s4
                    end
              end
        end
  end.

(** The escapes used when a Python literal of the source is written
    down here: the two characters backslash-n stand for a line feed and
    an apostrophe stands for a double quote. *)
Fixpoint unescape (s : pystr) : pystr :=
  match s with
  | [] => []
  | c :: r =>
      match r with
      | d :: r' =>
          if (c =? 92) && (d =? 110) then 10 :: unescape r'
          else (if c =? 39 then 34 else c) :: unescape r
      | [] => [if c =? 39 then 34 else c]
      end
  end.

Definition eqb (a b : pystr) : bool :=
  if list_eq_dec N.eq_dec a b then true else false.

(** [s.startswith(p)], returning what follows the prefix. *)
Fixpoint strip_prefix (p s : pystr) : option pystr :=
  match p with
  | [] => Some s
  | a :: p' =>
      match s with
      | b :: s' => if a =? b then strip_prefix p' s' else None
      | [] => None
      end
  end.

Definition is_digit (c : N) : bool := (48 <=? c) && (c <=? 57).

Fixpoint of_uint (d : Decimal.uint) : pystr :=
  match d with
  | Decimal.Nil => []
  | Decimal.D0 d => 48 :: of_uint d
  | Decimal.D1 d => 49 :: of_uint d
  | Decimal.D2 d => 50 :: of_uint d
  | Decimal.D3 d => 51 :: of_uint d
  | Decimal.D4 d => 52 :: of_uint d
  | Decimal.D5 d => 53 :: of_uint d
  | Decimal.D6 d => 54 :: of_uint d
  | Decimal.D7 d => 55 :: of_uint d
  | Decimal.D8 d => 56 :: of_uint d
  | Decimal.D9 d => 57 :: of_uint d
  end.

(** [str(n)] for a natural number. *)
Definition of_N (n : N) : pystr := of_uint (N.to_uint n).

(** [str(z)] for an [int]. *)
Definition of_Z (z : Z) : pystr :=
  match z with
  | Zneg p => 45 :: of_N (Npos p)
  | _ => of_N (Z.to_N z)
  end.

Definition of_nat (n : nat) : pystr := of_N (N.of_nat n).

End Str.

(** [py "..."] is the string with exactly the characters of the literal;
    [lit "..."] reads the literal with the two escapes of [Str.unescape]. *)
Definition py (s : string) : pystr := Str.utf8_decode s.
Definition lit (s : string) : pystr := Str.unescape (Str.utf8_decode s).

(** ** Python floats *)

Module Float.

Definition prec : Z := 53.
Definition emax : Z := 1024.

Definition sub : spec_float -> spec_float -> spec_float := SFsub prec emax.
Definition mul : spec_float -> spec_float -> spec_float := SFmul prec emax.

(** [float(z)] for an [int] (round to nearest, ties to even). *)
Definition of_Z (z : Z) : spec_float := binary_normalize prec emax z 0 false.

(** The binary64 value nearest to [m / d] for [m, d > 0]: the quotient
    is computed with 64 significant bits at least and the remainder is
    folded into a last sticky bit before the final rounding. *)
Definition of_ratio (neg : bool) (m d : positive) : spec_float :=
  let sh := Z.add (Zpos (digits2_pos d)) 64 in
  let q := Z.div (Z.shiftl (Zpos m) sh) (Zpos d) in
  let r := Z.modulo (Z.shiftl (Zpos m) sh) (Zpos d) in
  let q' := Z.add (Z.mul 2 q) (if Z.eqb r 0 then 0 else 1)%Z in
  binary_normalize prec emax (if neg then Z.opp q' else q')
                   (Z.opp (Z.add sh 1)) neg.

(** [float(s)] for the decimal literal [(-1)^neg * m * 10^e]. *)
Definition of_decimal (neg : bool) (m : N) (e : Z) : spec_float :=
  match m with
  | N0 => S754_zero neg
  | Npos p =>
      match e with
      | Zneg k => of_ratio neg p (Pos.pow 10 k)
      | _ => binary_normalize prec emax
               (if neg then Z.opp (Zpos p * 10 ^ e) else (Zpos p * 10 ^ e))%Z
               0 neg
      end
  end.

(** The integer nearest to [m * 2^e], ties to the even one. *)
Definition round_half_even (m : positive) (e : Z) : N :=
  match e with
  | Zneg k =>
      let d := Z.pow 2 (Zpos k) in
      let q := Z.div (Zpos m) d in
      let r := Z.modulo (Zpos m) d in
      Z.to_N
        match Z.compare (2 * r) d with
        | Lt => q
        | Gt => q + 1
        | Eq => if Z.even q then q else q + 1
        end%Z
  | _ => Z.to_N (Zpos m * 2 ^ e)
  end.

Definition sign (s : bool) : pystr := if s then [45] else [].

(** [format(x, ".0f")]. *)
Definition format_0f (x : spec_float) : pystr :=
  match x with
  | S754_nan => py "nan"
  | S754_infinity s => sign s ++ py "inf"
  | S754_zero s => sign s ++ py "0"
  | S754_finite s m e => sign s ++ Str.of_N (round_half_even m e)
  end.

(** [x == z] for a float [x] and an [int] [z]. *)
Definition eqb_Z (x : spec_float) (z : Z) : bool :=
  match x with
  | S754_zero _ => Z.eqb z 0
  | S754_finite s m e =>
      let v := if s then Zneg m else Zpos m in
      match e with
      | Zneg k => Z.eqb v (z * 2 ^ Zpos k)
      | _ => Z.eqb (v * 2 ^ e) z
      end
  | _ => false
  end.

End Float.

(** ** Exceptions *)

(** The exception classes the helpers can meet.  Every class of the model
    derives from [Exception]; [JSONDecodeError] derives from
    [ValueError].  [LibraryError name] stands for any other [Exception]
    subclass raised by a third-party call (a [requests] timeout, an
    OpenAI authentication error, ...). *)
Inductive exn_class :=
| JSONDecodeError
| ValueError
| TypeError
| IndexError
| RecursionError
| LibraryError (name : pystr).

(** An exception instance: its class and [str(e)]. *)
Record exn := Exn { exn_cls : exn_class; exn_str : pystr }.

(** [isinstance(e, c)] for the classes named in an [except] clause. *)
Definition isinstance (e : exn) (c : exn_class) : bool :=
  match c, exn_cls e with
  | JSONDecodeError, JSONDecodeError => true
  | ValueError, (ValueError | JSONDecodeError) => true
  | TypeError, TypeError => true
  | IndexError, IndexError => true
  | RecursionError, RecursionError => true
  | LibraryError n, LibraryError n' => Str.eqb n n'
  | _, _ => false
  end.

(** The outcome of an expression: raised or returned. *)
Definition result (A : Type) : Type := (exn + A)%type.

(** ** JSON values and [json.loads] *)

#[warnings="-register-all"] Inductive json :=
| JNull
| JBool (b : bool)
| JInt (z : Z)
| JFloat (f : spec_float)
| JStr (s : pystr)
| JArr (xs : list json)
| JObj (kvs : list (pystr * json)).

(** The decoder follows CPython's [json] package with its C scanner
    (error texts and positions as of CPython 3.11), in strict mode and
    with the default hooks: objects become insertion-ordered [dict]s,
    [NaN], [Infinity] and [-Infinity] are accepted. *)
Module Json.

(** [d[k] = v] on an insertion-ordered [dict] with [str] keys. *)
Fixpoint dict_set (k : pystr) (v : json) (d : list (pystr * json))
  : list (pystr * json) :=
  match d with
  | [] => [(k, v)]
  | (k', v') :: d' =>
      if Str.eqb k k' then (k', v) :: d' else (k', v') :: dict_set k v d'
  end.

(** [d.get(k)] *)
Fixpoint dict_get (k : pystr) (d : list (pystr * json)) : option json :=
  match d with
  | [] => None
  | (k', v) :: d' => if Str.eqb k k' then Some v else dict_get k d'
  end.

(** Why the decoder gave up. *)
Inductive reason :=
| ExpectingValue
| ExtraData
| ExpectingPropertyName
| ExpectingColon
| ExpectingComma
| UnterminatedString
| InvalidControl
| InvalidEscape
| InvalidUnicodeEscape
| UnexpectedBOM.

Definition reason_msg (r : reason) : pystr :=
  match r with
  | ExpectingValue => py "Expecting value"
  | ExtraData => py "Extra data"
  | ExpectingPropertyName =>
      py "Expecting property name enclosed in double quotes"
  | ExpectingColon => py "Expecting ':' delimiter"
  | ExpectingComma => py "Expecting ',' delimiter"
  | UnterminatedString => py "Unterminated string starting at"
  | InvalidControl => py "Invalid control character at"
  | InvalidEscape => py "Invalid \escape"
  | InvalidUnicodeEscape => py "Invalid \uXXXX escape"
  | UnexpectedBOM => py "Unexpected UTF-8 BOM (decode using utf-8-sig)"
  end.

(** Result of a scanning step: a value and the unread rest, a syntax
    error with the number of characters that were still unread where it
    was detected, an exception of another kind raised by a conversion,
    or recursion budget exhausted. *)
Inductive pres (A : Type) :=
| POk (a : A) (rest : pystr)
| PErr (r : reason) (left : nat)
| PRaise (e : exn)
| PFuel.
Arguments POk {A}.
Arguments PErr {A}.
Arguments PRaise {A}.
Arguments PFuel {A}.

Definition is_ws (c : N) : bool :=
  (c =? 32) || (c =? 9) || (c =? 10) || (c =? 13).

Fixpoint skip_ws (s : pystr) : pystr :=
  match s with
  | c :: r => if is_ws c then skip_ws r else s
  | [] => []
  end.

Definition hex_digit (c : N) : option N :=
  if (48 <=? c) && (c <=? 57) then Some (c - 48)
  else if (97 <=? c) && (c <=? 102) then Some (c - 87)
  else if (65 <=? c) && (c <=? 70) then Some (c - 55)
  else None.

Definition hex4 (s : pystr) : option (N * pystr) :=
  match s with
  | a :: b :: c :: d :: r =>
      match hex_digit a, hex_digit b, hex_digit c, hex_digit d with
      | Some x, Some y, Some z, Some w =>
          Some (x * 4096 + y * 256 + z * 16 + w, r)
      | _, _, _, _ => None
      end
  | _ => None
  end.

Definition simple_escape (c : N) : option N :=
  if c =? 34 then Some 34          (* quote *)
  else if c =? 92 then Some 92     (* backslash *)
  else if c =? 47 then Some 47     (* slash *)
  else if c =? 98 then Some 8      (* b *)
  else if c =? 102 then Some 12    (* f *)
  else if c =? 110 then Some 10    (* n *)
  else if c =? 114 then Some 13    (* r *)
  else if c =? 116 then Some 9     (* t *)
  else None.

Definition is_high_surrogate (c : N) : bool := (0xD800 <=? c) && (c <=? 0xDBFF).
Definition is_low_surrogate (c : N) : bool := (0xDC00 <=? c) && (c <=? 0xDFFF).
Definition join_surrogates (hi lo : N) : N :=
  0x10000 + (hi - 0xD800) * 1024 + (lo - 0xDC00).

(** The string scanner, entered after the opening quote; [begin] is the
    number of unread characters at the opening quote and [acc] the
    characters decoded so far, last first. *)
Fixpoint scanstring (fuel : nat) (begin : nat) (s : pystr) (acc : pystr)
  : pres pystr :=
  match fuel with
  | O => PFuel
  | S n =>
      match s with
      | [] => PErr UnterminatedString begin
      | c :: r =>
          if c =? 34 then POk (rev acc) r
          else if c =? 92 then
            match r with
            | [] => PErr UnterminatedString begin
            | e :: r1 =>
                if e =? 117 then
                  if (length r1 <=? 4)%nat
                  then PErr InvalidUnicodeEscape (length r)
                  else
                    match hex4 r1 with
                    | None => PErr InvalidUnicodeEscape (length r)
                    | Some (c1, r2) =>
                        if is_high_surrogate c1 && (7 <=? length r2)%nat
                        then
                          match r2 with
                          | b :: u :: r3 =>
                              if (b =? 92) && (u =? 117) then
                                match hex4 r3 with
                                | None =>
                                    PErr InvalidUnicodeEscape (S (length r3))
                                | Some (c2, r4) =>
                                    if is_low_surrogate c2
                                    then scanstring n begin r4
                                           (join_surrogates c1 c2 :: acc)
                                    else scanstring n begin r2 (c1 :: acc)
                                end
                              else scanstring n begin r2 (c1 :: acc)
                          | _ => scanstring n begin r2 (c1 :: acc)
                          end
                        else scanstring n begin r2 (c1 :: acc)
                    end
                else
                  match simple_escape e with
                  | Some ch => scanstring n begin r1 (ch :: acc)
                  | None => PErr InvalidEscape (length s)
                  end
            end
          else if c <=? 0x1F then PErr InvalidControl (length s)
          else scanstring n begin r (c :: acc)
      end
  end.

(** The longest run of decimal digits at the head of [s]. *)
Fixpoint take_digits (s : pystr) : pystr * pystr :=
  match s with
  | c :: r =>
      if Str.is_digit c
      then let (ds, r') := take_digits r in (c :: ds, r')
      else ([], s)
  | [] => ([], [])
  end.

(** The value of a run of decimal digits. *)
Definition digits_value (ds : pystr) : N :=
  fold_left (fun acc c => acc * 10 + (c - 48)) ds 0.

(** The integer part: [0] or a digit run that does not start with [0]. *)
Definition match_integer (s : pystr) : option (pystr * pystr) :=
  match s with
  | c :: r =>
      if c =? 48 then Some ([c], r)
      else if Str.is_digit c then Some (take_digits s)
      else None
  | [] => None
  end.

(** The fraction: a dot followed by one digit at least. *)
Definition match_frac (s : pystr) : option (pystr * pystr) :=
  match s with
  | c :: ((d :: _) as r) =>
      if (c =? 46) && Str.is_digit d then Some (take_digits r) else None
  | _ => None
  end.

(** The exponent: [e] or [E], an optional sign, one digit at least. *)
Definition match_exp (s : pystr) : option (Z * pystr) :=
  match s with
  | c :: r =>
      if (c =? 101) || (c =? 69) then
        let '(neg, r1) :=
          match r with
          | sg :: r' =>
              if sg =? 45 then (true, r')
              else if sg =? 43 then (false, r') else (false, r)
          | [] => (false, r)
          end in
        match take_digits r1 with
        | ([], _) => None
        | (ds, r2) =>
            let v := Z.of_N (digits_value ds) in
            Some (if neg then Z.opp v else v, r2)
        end
      else None
  | [] => None
  end.

(** [sys.get_int_max_str_digits()] as the interpreter starts: the most
    digits [int] converts from a decimal string. *)
Definition int_max_str_digits : nat := 4300.

(** The [ValueError] of [int] on a string of more digits than that. *)
Definition int_digits_error (digits : nat) : exn :=
  Exn ValueError
      (py "Exceeds the limit (" ++ Str.of_nat int_max_str_digits
       ++ py " digits) for integer string conversion: value has "
       ++ Str.of_nat digits
       ++ py " digits; use sys.set_int_max_str_digits() to increase the limit").

(** A number literal at the head of [s]: an [int] when it has neither
    fraction nor exponent, a [float] otherwise.  The literal of an [int]
    is converted by [int], which refuses more than
    [int_max_str_digits] digits; [float] has no such limit. *)
Definition match_number (s : pystr) : option (result json * pystr) :=
  let '(neg, s1) :=
    match s with
    | c :: r => if c =? 45 then (true, r) else (false, s)
    | [] => (false, s)
    end in
  match match_integer s1 with
  | None => None
  | Some (ip, s2) =>
      let '(fp, s3) :=
        match match_frac s2 with
        | Some (ds, r) => (Some ds, r)
        | None => (None, s2)
        end in
      let '(ep, s4) :=
        match match_exp s3 with
        | Some (e, r) => (Some e, r)
        | None => (None, s3)
        end in
      match fp, ep with
      | None, None =>
          if (length ip <=? int_max_str_digits)%nat then
            let v := Z.of_N (digits_value ip) in
            Some (inr (JInt (if neg then Z.opp v else v)), s4)
          else Some (inl (int_digits_error (length ip)), s4)
      | _, _ =>
          let fds := match fp with Some ds => ds | None => [] end in
          let e := match ep with Some e => e | None => 0%Z end in
          Some (inr (JFloat (Float.of_decimal neg (digits_value (ip ++ fds))
                               (e - Z.of_nat (length fds)))), s4)
      end
  end.

(** The scanner proper.  [scan_once] reads one value at the head of
    [s]; [parse_array] and [parse_object] are entered after the opening
    bracket with the whitespace skipped, on the first element. *)
Fixpoint scan_once (fuel : nat) (s : pystr) : pres json :=
  match fuel with
  | O => PFuel
  | S n =>
      match s with
      | [] => PErr ExpectingValue 0
      | c :: r =>
          if c =? 34 then
            match scanstring n (length s) r [] with
            | POk k r' => POk (JStr k) r'
            | PErr e l => PErr e l
            | PRaise e => PRaise e
            | PFuel => PFuel
            end
          else if c =? 123 then
            let s1 := skip_ws r in
            match s1 with
            | c1 :: r' =>
                if c1 =? 125 then POk (JObj []) r' else parse_object n s1 []
            | [] => parse_object n s1 []
            end
          else if c =? 91 then
            let s1 := skip_ws r in
            match s1 with
            | c1 :: r' =>
                if c1 =? 93 then POk (JArr []) r' else parse_array n s1 []
            | [] => parse_array n s1 []
            end
          else
            match Str.strip_prefix (py "null") s,
                  Str.strip_prefix (py "true") s,
                  Str.strip_prefix (py "false") s,
                  Str.strip_prefix (py "NaN") s,
                  Str.strip_prefix (py "Infinity") s,
                  Str.strip_prefix (py "-Infinity") s with
            | Some r', _, _, _, _, _ => POk JNull r'
            | _, Some r', _, _, _, _ => POk (JBool true) r'
            | _, _, Some r', _, _, _ => POk (JBool false) r'
            | _, _, _, Some r', _, _ => POk (JFloat S754_nan) r'
            | _, _, _, _, Some r', _ => POk (JFloat (S754_infinity false)) r'
            | _, _, _, _, _, Some r' => POk (JFloat (S754_infinity true)) r'
            | _, _, _, _, _, _ =>
                match match_number s with
                | Some (inr v, r') => POk v r'
                | Some (inl e, _) => PRaise e
                | None => PErr ExpectingValue (length s)
                end
            end
      end
  end
with parse_array (fuel : nat) (s : pystr) (acc : list json) : pres json :=
  match fuel with
  | O => PFuel
  | S n =>
      match scan_once n s with
      | POk v r =>
          let r1 := skip_ws r in
          match r1 with
          | c :: r2 =>
              if c =? 93 then POk (JArr (rev (v :: acc))) r2
              else if c =? 44 then parse_array n (skip_ws r2) (v :: acc)
              else PErr ExpectingComma (length r1)
          | [] => PErr ExpectingComma 0
          end
      | PErr e l => PErr e l
      | PRaise e => PRaise e
      | PFuel => PFuel
      end
  end
with parse_object (fuel : nat) (s : pystr) (acc : list (pystr * json))
  : pres json :=
  match fuel with
  | O => PFuel
  | S n =>
      match s with
      | c :: r =>
          if c =? 34 then
            match scanstring n (length s) r [] with
            | POk key r1 =>
                let r2 := skip_ws r1 in
                match r2 with
                | c2 :: r3 =>
                    if c2 =? 58 then
                      match scan_once n (skip_ws r3) with
                      | POk v r4 =>
                          let acc' := dict_set key v acc in
                          let r5 := skip_ws r4 in
                          match r5 with
                          | c5 :: r6 =>
                              if c5 =? 125 then POk (JObj acc') r6
                              else if c5 =? 44
                                   then parse_object n (skip_ws r6) acc'
                                   else PErr ExpectingComma (length r5)
                          | [] => PErr ExpectingComma 0
                          end
                      | PErr e l => PErr e l
                      | PRaise e => PRaise e
                      | PFuel => PFuel
                      end
                    else PErr ExpectingColon (length r2)
                | [] => PErr ExpectingColon 0
                end
            | PErr e l => PErr e l
            | PRaise e => PRaise e
            | PFuel => PFuel
            end
          else PErr ExpectingPropertyName (length s)
      | [] => PErr ExpectingPropertyName 0
      end
  end.

(** Recursion budget that no document exhausts (see [decode_progress]). *)
Definition budget (s : pystr) : nat := 2 * length s + 1.

(** [JSONDecoder.decode]: one value, whitespace around it, nothing else. *)
Definition decode (s : pystr) : pres json :=
  let s0 := skip_ws s in
  match scan_once (budget s0) s0 with
  | POk v r =>
      match skip_ws r with
      | [] => POk v []
      | r' => PErr ExtraData (length r')
      end
  | PErr e l => PErr e l
  | PRaise e => PRaise e
  | PFuel => PFuel
  end.

(** The text after the last line feed of [s]. *)
Fixpoint last_line (s : pystr) (cur : pystr) : pystr :=
  match s with
  | [] => cur
  | c :: r => if c =? 10 then last_line r [] else last_line r (cur ++ [c])
  end.

(** [str(JSONDecodeError(msg, doc, pos))]. *)
Definition error_str (msg : pystr) (doc : pystr) (pos : nat) : pystr :=
  let before := firstn pos doc in
  let lineno := S (count_occ N.eq_dec before 10) in
  let colno := S (length (last_line before [])) in
  msg ++ py ": line " ++ Str.of_nat lineno ++ py " column "
      ++ Str.of_nat colno ++ py " (char " ++ Str.of_nat pos ++ py ")".

Definition decode_error (r : reason) (doc : pystr) (pos : nat) : exn :=
  Exn JSONDecodeError (error_str (reason_msg r) doc pos).

(** [json.loads(s)] for a [str] or [None] argument.  The last case of
    the match never arises: no document exhausts the budget (see
    [decode_progress]), so this function raises [JSONDecodeError],
    [int]'s [ValueError] or, on [None], [TypeError], and never the
    [RecursionError] that CPython raises on a document nested deeper
    than its call stack allows. *)
Definition loads (o : option pystr) : result json :=
  match o with
  | None =>
      inl (Exn TypeError
             (py "the JSON object must be str, bytes or bytearray, not NoneType"))
  | Some s =>
      match Str.strip_prefix [0xFEFF] s with
      | Some _ => inl (decode_error UnexpectedBOM s 0)
      | None =>
          match decode s with
          | POk v _ => inr v
          | PErr r l => inl (decode_error r s (length s - l))
          | PRaise e => inl e
          | PFuel =>
              inl (Exn RecursionError
                     (py "maximum recursion depth exceeded"))
          end
      end
  end.

End Json.

(** ** Regular expressions and [re.search] *)

Module Re.

(** Character sets: [\s] on [str] patterns (Unicode whitespace), [.]
    under [re.DOTALL] (any character, line feeds included) and the
    ASCII digits [[0-9]]. *)
Inductive cset := Space | AnyChar | Digit.

Definition is_space (c : N) : bool :=
  ((9 <=? c) && (c <=? 13)) || ((0x1C <=? c) && (c <=? 0x20))
  || (c =? 0x85) || (c =? 0xA0) || (c =? 0x1680)
  || ((0x2000 <=? c) && (c <=? 0x200A))
  || (c =? 0x2028) || (c =? 0x2029) || (c =? 0x202F) || (c =? 0x205F)
  || (c =? 0x3000).

Definition in_cset (cs : cset) (c : N) : bool :=
  match cs with
  | Space => is_space c
  | AnyChar => true
  | Digit => Str.is_digit c
  end.

(** The fragment of the pattern language the dashboard uses. *)
Inductive regex :=
| Lit (cs : pystr)            (* the characters themselves *)
| One (c : cset)              (* one character of the set *)
| Cat (r1 r2 : regex)         (* r1 r2 *)
| Opt (r : regex)             (* (?:r)?  greedy *)
| Star (c : cset)             (* c*      greedy *)
| StarLazy (c : cset)         (* c*?     lazy *)
| Group (r : regex).          (* (r)     capturing group 1 *)

Section Matcher.

Context {A : Type}.

(** [c*] then the continuation, longest run first. *)
Fixpoint star_greedy (c : cset) (s : pystr) (k : pystr -> option A)
  : option A :=
  match s with
  | a :: s' =>
      if in_cset c a then
        match star_greedy c s' k with
        | Some x => Some x
        | None => k s
        end
      else k s
  | [] => k s
  end.

(** [c*?] then the continuation, shortest run first. *)
Fixpoint star_lazy (c : cset) (s : pystr) (k : pystr -> option A)
  : option A :=
  match k s with
  | Some x => Some x
  | None =>
      match s with
      | a :: s' => if in_cset c a then star_lazy c s' k else None
      | [] => None
      end
  end.

(** The backtracking matcher: [run r s g k] matches [r] at the head of
    [s] and hands the unread rest and the group to [k]; when [k] fails
    the next alternative is tried, in the order of Python's engine. *)
Fixpoint run (r : regex) (s : pystr) (g : option pystr)
         (k : pystr -> option pystr -> option A) : option A :=
  match r with
  | Lit cs =>
      match Str.strip_prefix cs s with
      | Some s' => k s' g
      | None => None
      end
  | One c =>
      match s with
      | a :: s' => if in_cset c a then k s' g else None
      | [] => None
      end
  | Cat r1 r2 => run r1 s g (fun s' g' => run r2 s' g' k)
  | Opt r1 =>
      match run r1 s g k with
      | Some x => Some x
      | None => k s g
      end
  | Star c => star_greedy c s (fun s' => k s' g)
  | StarLazy c => star_lazy c s (fun s' => k s' g)
  | Group r1 =>
      run r1 s g (fun s' _ => k s' (Some (firstn (length s - length s') s)))
  end.

End Matcher.

(** A match object, as far as the dashboard looks at it: [m.group(1)]
    ([None] when the group took no part in the match). *)
Record match_obj := { group1 : option pystr }.

Definition match_at (r : regex) (s : pystr) : option match_obj :=
  run r s None (fun _ g => Some {| group1 := g |}).

(** [re.fullmatch(r, s) is not None] *)
Definition fullmatch (r : regex) (s : pystr) : bool :=
  match run r s None (fun s' _ => match s' with [] => Some tt | _ => None end)
  with
  | Some _ => true
  | None => false
  end.

(** [re.search]: the match at the leftmost position that has one. *)
Fixpoint search (r : regex) (s : pystr) : option match_obj :=
  match match_at r s with
  | Some m => Some m
  | None =>
      match s with
      | _ :: s' => search r s'
      | [] => None
      end
  end.

(** The declarative reading of a pattern: [matches r w g g'] when [r]
    can consume exactly the characters [w], taking the group from [g]
    to [g']. *)
Inductive matches : regex -> pystr -> option pystr -> option pystr -> Prop :=
| M_Lit cs g : matches (Lit cs) cs g g
| M_One c a g : in_cset c a = true -> matches (One c) [a] g g
| M_Cat r1 r2 w1 w2 g g1 g2 :
    matches r1 w1 g g1 -> matches r2 w2 g1 g2 ->
    matches (Cat r1 r2) (w1 ++ w2) g g2
| M_OptSome r w g g' : matches r w g g' -> matches (Opt r) w g g'
| M_OptNone r g : matches (Opt r) [] g g
| M_Star c w g : forallb (in_cset c) w = true -> matches (Star c) w g g
| M_StarLazy c w g :
    forallb (in_cset c) w = true -> matches (StarLazy c) w g g
| M_Group r w g g' : matches r w g g' -> matches (Group r) w g (Some w).

End Re.

(** ** The outside world and the effects of the helpers *)

(** An HTTP POST as [requests.post] receives it. *)
Record http_request := {
  req_url : pystr;
  req_json : json;
  req_headers : list (pystr * pystr);
  req_timeout : Z
}.

(** What [requests.post] does: a response (only its [status_code] is
    looked at) or a raised error. *)
Inductive http_outcome :=
| Responded (status_code : Z)
| RequestRaised (e : exn).

(** A call of [client.chat.completions.create]. *)
Record chat_request := {
  chat_model : pystr;
  chat_messages : list (pystr * pystr);     (* role, content *)
  chat_response_format : pystr;             (* the "type" entry *)
  chat_temperature : spec_float
}.

(** What the chat service does: a completion, of which the helper reads
    [choices[i].message.content] (a [str] or [None]), or a raised error. *)
Inductive chat_outcome :=
| Completed (choices : list (option pystr))
| ChatRaised (e : exn).

(** The client object handed to [analyze_issue]. *)
Definition chat_client := chat_request -> chat_outcome.

(** The library calls a helper makes, in the order it makes them. *)
Inductive event :=
| Call_json_loads (arg : option pystr)
| Call_re_search (text : option pystr)
| Call_time_time
| Call_requests_post (rq : http_request)
| Call_chat_create (rq : chat_request).

(** The world a helper runs in: the wall clock as the sequence of the
    readings [time.time()] will return, how many were taken, the network
    as seen through [requests.post], and the log of the calls made. *)
Record World := {
  clock : nat -> spec_float;
  reads : nat;
  network : http_request -> http_outcome;
  calls : list event
}.

Definition log (ev : event) (w : World) : World :=
  {| clock := clock w; reads := reads w; network := network w;
     calls := calls w ++ [ev] |}.

(** Computations: state passing over [World], with exceptions. *)
Definition M (A : Type) : Type := World -> result A * World.

Definition ret {A : Type} (a : A) : M A := fun w => (inr a, w).

Definition raise {A : Type} (e : exn) : M A := fun w => (inl e, w).

Definition bind {A B : Type} (c : M A) (k : A -> M B) : M B :=
  fun w =>
    match c w with
    | (inr a, w') => k a w'
    | (inl e, w') => (inl e, w')
    end.

Notation "x <- c ;; k" := (bind c (fun x => k))
  (at level 61, c at next level, right associativity).

(** What an [except] clause names. *)
Inductive except_clause :=
| Except (c : exn_class)      (* except c: *)
| ExceptException.            (* except Exception: *)

Definition caught (cl : except_clause) (e : exn) : bool :=
  match cl with
  | Except c => isinstance e c
  | ExceptException => true
  end.

(** [try: body  except cl as e: handler e]. *)
Definition try_except {A : Type} (body : M A) (cl : except_clause)
           (handler : exn -> M A) : M A :=
  fun w =>
    match body w with
    | (inr a, w') => (inr a, w')
    | (inl e, w') => if caught cl e then handler e w' else (inl e, w')
    end.

(** The library calls as computations. *)
Definition json_loads (arg : option pystr) : M json :=
  fun w => (Json.loads arg, log (Call_json_loads arg) w).

Definition re_search (r : Re.regex) (text : option pystr)
  : M (option Re.match_obj) :=
  fun w =>
    (match text with
     | Some s => inr (Re.search r s)
     | None =>
         inl (Exn TypeError
                (py "expected string or bytes-like object, got 'NoneType'"))
     end, log (Call_re_search text) w).

Definition time_time : M spec_float :=
  fun w =>
    (inr (clock w (reads w)),
     log Call_time_time
         {| clock := clock w; reads := S (reads w); network := network w;
            calls := calls w |}).

Definition requests_post (rq : http_request) : M Z :=
  fun w =>
    (match network w rq with
     | Responded st => inr st
     | RequestRaised e => inl e
     end, log (Call_requests_post rq) w).

Definition chat_create (client : chat_client) (rq : chat_request)
  : M (list (option pystr)) :=
  fun w =>
    (match client rq with
     | Completed cs => inr cs
     | ChatRaised e => inl e
     end, log (Call_chat_create rq) w).

(** [xs[0]] *)
Definition index0 {A : Type} (xs : list A) : M A :=
  match xs with
  | x :: _ => ret x
  | [] => raise (Exn IndexError (py "list index out of range"))
  end.

(** ** The helpers of the dashboard *)

(** The pattern of [clean_json_output], compiled with [re.DOTALL]:
    three backticks, an optional [json] tag, whitespace, group 1 (an
    opening brace, as few characters as possible, a closing brace),
    whitespace, three backticks. *)
Definition fence_pattern : Re.regex :=
  Re.Cat (Re.Lit (py "```"))
    (Re.Cat (Re.Opt (Re.Lit (py "json")))
       (Re.Cat (Re.Star Re.Space)
          (Re.Cat (Re.Group
                     (Re.Cat (Re.Lit (py "{"))
                        (Re.Cat (Re.StarLazy Re.AnyChar) (Re.Lit (py "}")))))
             (Re.Cat (Re.Star Re.Space) (Re.Lit (py "```")))))).

Definition clean_json_output (raw_text : option pystr) : M json :=
  try_except
    (json_loads raw_text)
    (Except JSONDecodeError)
    (fun _ =>
       m <- re_search fence_pattern raw_text ;;
       match m with
       | Some m => json_loads (Re.group1 m)
       | None =>
           raise (Exn ValueError
                    (py "The AI response could not be parsed as JSON."))
       end).

(** The JSON-RPC body of the health probe. *)
Definition probe_payload : json :=
  JObj [(py "jsonrpc", JStr (py "2.0"));
        (py "method", JStr (py "eth_blockNumber"));
        (py "params", JArr []);
        (py "id", JInt 1)].

Definition probe_request (url : pystr) : http_request :=
  {| req_url := url;
     req_json := probe_payload;
     req_headers := [(py "Content-Type", py "application/json")];
     req_timeout := 3 |}.

Definition check_rpc_status (url : option pystr) : M (bool * pystr) :=
  match url with
  | None | Some [] => ret (false, py "No URL Configured")
  | Some u =>
      try_except
        (start <- time_time ;;
         status_code <- requests_post (probe_request u) ;;
         if Z.eqb status_code 200 then
           now <- time_time ;;
           let lat := Float.mul (Float.sub now start) (Float.of_Z 1000) in
           ret (true, Float.format_0f lat ++ py "ms")
         else ret (false, py "HTTP " ++ Str.of_Z status_code))
        ExceptException
        (fun _ => ret (false, py "Connection Failed"))
  end.

Definition system_prompt : pystr :=
  lit "\n    You are a Senior Blockchain Support Engineer.\n"
  ++ lit "    Analyze the technical issue and logs provided by the user.\n"
  ++ lit "    \n"
  ++ lit "    Output a STRICT JSON object with this schema:\n"
  ++ lit "    {\n"
  ++ lit "        'analysis_summary': 'Technical root cause explanation.',\n"
  ++ lit "        'suggested_steps': ['Step 1', 'Step 2', 'Step 3'],\n"
  ++ lit "        'script_required': boolean,\n"
  ++ lit "        'python_script': 'Full Python script code if needed, else null.',\n"
  ++ lit "        'bug_report': {\n"
  ++ lit "            'title': 'Concise Bug Title',\n"
  ++ lit "            'description': 'Formal description for the ticket.',\n"
  ++ lit "            'severity': 'Integer 1-5 (1=Critical, 5=Minor)',\n"
  ++ lit "            'category': 'Category String (e.g., API Error, Latency)'\n"
  ++ lit "        }\n"
  ++ lit "    }\n"
  ++ lit "    ".

Definition user_content (desc logs : pystr) : pystr :=
  lit "\n    [ISSUE DESCRIPTION]\n    " ++ desc
  ++ lit "\n\n    [LOGS]\n    " ++ firstn 5000 logs ++ lit "\n    ".

Definition analysis_request (model_id desc logs : pystr) : chat_request :=
  {| chat_model := model_id;
     chat_messages := [(py "system", system_prompt);
                       (py "user", user_content desc logs)];
     chat_response_format := py "json_object";
     chat_temperature := Float.of_decimal false 2 (-1) |}.

(** The body of the [try] block of [analyze_issue]. *)
Definition analysis_attempt (client : chat_client)
           (model_id desc logs : pystr) : M json :=
  choices <- chat_create client (analysis_request model_id desc logs) ;;
  content <- index0 choices ;;
  clean_json_output content.

Definition analyze_issue (client : chat_client) (model_id desc logs : pystr)
  : M json :=
  try_except
    (analysis_attempt client model_id desc logs)
    ExceptException
    (fun e => ret (JObj [(py "error", JStr (exn_str e))])).

(** ** The severity cell of the bug-report card *)

Definition sev_map : list (Z * pystr) :=
  [(1, py "🔴 Critical");
   (2, py "🟠 High");
   (3, py "🟡 Medium");
   (4, py "🔵 Low");
   (5, py "⚪ Info")]%Z.

(** [k == i] for a value [k] that came out of [json.loads] and an [int]
    key [i]; lists and dicts cannot be hashed. *)
Definition key_eqb (k : json) (i : Z) : bool :=
  match k with
  | JInt z => Z.eqb z i
  | JBool b => Z.eqb (if b then 1 else 0) i
  | JFloat f => Float.eqb_Z f i
  | _ => false
  end.

Fixpoint lookup (k : json) (d : list (Z * pystr)) : option pystr :=
  match d with
  | [] => None
  | (i, v) :: d' => if key_eqb k i then Some v else lookup k d'
  end.

(** [sev_map.get(k, default)]: a label of the map or the default. *)
Definition sev_map_get (k : json) (default : json) : result json :=
  match k with
  | JArr _ => inl (Exn TypeError (py "unhashable type: 'list'"))
  | JObj _ => inl (Exn TypeError (py "unhashable type: 'dict'"))
  | _ =>
      match lookup k sev_map with
      | Some v => inr (JStr v)
      | None => inr default
      end
  end.

(** How an f-string shows the two kinds of value the lookup can give. *)
Definition fstring_field (v : json) : pystr :=
  match v with
  | JStr s => s
  | JInt z => Str.of_Z z
  | _ => []
  end.

(** [f"{sev_map.get(report.get("severity", 3), 3)}"] for a [dict]
    [report]: the text shown after "Severity:" on the card. *)
Definition severity_cell (report : list (pystr * json)) : result pystr :=
  let severity :=
    match Json.dict_get (py "severity") report with
    | Some v => v
    | None => JInt 3
    end in
  match sev_map_get severity (JInt 3) with
  | inr v => inr (fstring_field v)
  | inl e => inl e
  end.

(** A fenced block of [s] in the words of the specification: after
    [pre] come three backticks, an optional [json] tag, whitespace, a
    span that opens with a brace and closes with one, whitespace and
    three backticks again. *)
Definition fenced_object (s pre span : pystr) : Prop :=
  exists tag ws1 body ws2 post,
    s = pre ++ py "```" ++ tag ++ ws1 ++ span ++ ws2 ++ py "```" ++ post
    /\ (tag = [] \/ tag = py "json")
    /\ forallb Re.is_space ws1 = true
    /\ forallb Re.is_space ws2 = true
    /\ span = py "{" ++ body ++ py "}".

(** What follows the lazy star in [fence_pattern]: the closing brace,
    whitespace and the closing fence. *)
Definition fence_closes (s : pystr) : Prop :=
  exists ws post,
    s = py "}" ++ ws ++ py "```" ++ post /\ forallb Re.is_space ws = true.

(** The shape the probe's latency text is expected to have, [^\d+ms$]
    read with ASCII digits and [$] as the very end of the text: one
    digit, more digits, [ms], nothing else. *)
Definition latency_pattern : Re.regex :=
  Re.Cat (Re.One Re.Digit) (Re.Cat (Re.Star Re.Digit) (Re.Lit (py "ms"))).

(** The elapsed time is a finite number that is not negative. *)
Definition elapsed_ok (lat : spec_float) : bool :=
  match lat with
  | S754_zero false | S754_finite false _ _ => true
  | _ => false
  end.

(** The world before a helper has run. *)
Definition fresh (clk : nat -> spec_float) (net : http_request -> http_outcome)
  : World :=
  {| clock := clk; reads := 0; network := net; calls := [] |}.

(** The sign of a float is not the negative one ([NaN] has none). *)
Definition sign_nonneg (x : spec_float) : bool :=
  match x with
  | S754_zero false | S754_finite false _ _ | S754_infinity false => true
  | _ => false
  end.

Definition is_finite (x : spec_float) : bool :=
  match x with
  | S754_zero _ | S754_finite _ _ _ => true
  | _ => false
  end.

(** What [time.time()] returns on a sane system: a well-formed binary64
    value, finite and not negative (seconds since the epoch). *)
Definition clock_reading (x : spec_float) : bool :=
  valid_binary Float.prec Float.emax x && elapsed_ok x.

(** Sample worlds: a clock that reads [t0] first and [t1] afterwards,
    and a network that answers every request with [out]. *)
Definition two_readings (t0 t1 : spec_float) : nat -> spec_float :=
  fun i => match i with O => t0 | S _ => t1 end.

Definition sample_world (t0 t1 : spec_float) (out : http_outcome) : World :=
  fresh (two_readings t0 t1) (fun _ => out).

Definition idle_world : World :=
  sample_world (S754_zero false) (S754_zero false) (Responded 200).

(** A [requests] timeout. *)
Definition connect_timeout : exn :=
  Exn (LibraryError (py "requests.exceptions.ConnectTimeout"))
      (py "HTTPConnectionPool(host='node', port=443): Max retries exceeded").

(** A text that opens with an integer literal of 4301 digits and goes
    on with a fenced empty object. *)
Definition long_integer_text : pystr :=
  repeat 49 4301%nat ++ py " ```{}```".

(** A scanning step behaved: it did not exhaust its budget, and what it
    left unread is shorter than what it was given. *)
Definition progressed {A : Type} (s : pystr) (p : Json.pres A) : Prop :=
  match p with
  | Json.POk _ r => (length r < length s)%nat
  | Json.PErr _ _ => True
  | Json.PRaise _ => True
  | Json.PFuel => False
  end.

(** ** The page script *)

(** Python's view of the values that come out of [json.loads]. *)
Definition truthy (v : json) : bool :=
  match v with
  | JNull => false
  | JBool b => b
  | JInt z => negb (Z.eqb z 0)
  | JFloat (S754_zero _) => false
  | JFloat _ => true
  | JStr s => match s with [] => false | _ => true end
  | JArr xs => match xs with [] => false | _ => true end
  | JObj kvs => match kvs with [] => false | _ => true end
  end.

(** [type(v).__name__] *)
Definition type_name (v : json) : pystr :=
  match v with
  | JNull => py "NoneType"
  | JBool _ => py "bool"
  | JInt _ => py "int"
  | JFloat _ => py "float"
  | JStr _ => py "str"
  | JArr _ => py "list"
  | JObj _ => py "dict"
  end.

(** An uncaught exception as the page reports it: class name and text. *)
Record crash := { crash_class : pystr; crash_text : pystr }.

Definition class_name (c : exn_class) : pystr :=
  match c with
  | JSONDecodeError => py "JSONDecodeError"
  | ValueError => py "ValueError"
  | TypeError => py "TypeError"
  | IndexError => py "IndexError"
  | RecursionError => py "RecursionError"
  | LibraryError n => n
  end.

Definition uncaught (e : exn) : crash :=
  {| crash_class := class_name (exn_cls e); crash_text := exn_str e |}.

Definition type_error (text : pystr) : crash :=
  {| crash_class := py "TypeError"; crash_text := text |}.

Definition attribute_error (v : json) (attr : pystr) : crash :=
  {| crash_class := py "AttributeError";
     crash_text := py "'" ++ type_name v ++ py "' object has no attribute '"
                      ++ attr ++ py "'" |}.

(** [needle in s] for two [str]s. *)
Fixpoint contains (needle s : pystr) : bool :=
  match Str.strip_prefix needle s with
  | Some _ => true
  | None =>
      match s with
      | _ :: s' => contains needle s'
      | [] => false
      end
  end.

(** ["key" in v]: a key of a [dict], an element of a [list], a
    substring of a [str]; the other values are not containers. *)
Definition py_in (key : pystr) (v : json) : crash + bool :=
  match v with
  | JObj kvs =>
      inr match Json.dict_get key kvs with Some _ => true | None => false end
  | JArr xs =>
      inr (existsb (fun x => match x with
                             | JStr s => Str.eqb key s
                             | _ => false
                             end) xs)
  | JStr s => inr (contains key s)
  | _ =>
      inl (type_error (py "argument of type '" ++ type_name v
                          ++ py "' is not iterable"))
  end.

(** [v["key"]] for a value on which ["key" in v] held. *)
Definition py_item (v : json) (key : pystr) : crash + json :=
  match v with
  | JObj kvs =>
      match Json.dict_get key kvs with
      | Some x => inr x
      | None => inl {| crash_class := py "KeyError";
                       crash_text := py "'" ++ key ++ py "'" |}
      end
  | JArr _ =>
      inl (type_error (py "list indices must be integers or slices, not str"))
  | JStr _ =>
      inl (type_error (py "string indices must be integers, not 'str'"))
  | _ =>
      inl (type_error (py "'" ++ type_name v
                          ++ py "' object is not subscriptable"))
  end.

(** [v.get("key", default)] *)
Definition py_get (v : json) (key : pystr) (default : json) : crash + json :=
  match v with
  | JObj kvs =>
      inr match Json.dict_get key kvs with Some x => x | None => default end
  | _ => inl (attribute_error v (py "get"))
  end.

(** What [for x in v] goes through. *)
Definition py_iter (v : json) : crash + list json :=
  match v with
  | JArr xs => inr xs
  | JObj kvs => inr (map (fun kv => JStr (fst kv)) kvs)
  | JStr s => inr (map (fun c => JStr [c]) s)
  | _ =>
      inl (type_error (py "'" ++ type_name v ++ py "' object is not iterable"))
  end.

(** A piece of an f-string: literal text, or [str(v)] of a value (kept as
    the value). *)
Inductive segment :=
| Text (s : pystr)
| Shown (v : json).

(** The Streamlit calls of the page, as the script makes them: which
    call, with which arguments, in which order.  What Streamlit draws
    for a call, or whether it accepts the arguments, is not part of the
    model. *)
Inductive ui_call :=
| St_set_page_config (page_title page_icon layout : pystr)
| St_markdown (body : list segment) (unsafe_allow_html : bool)
| St_header (body : pystr)
| St_title (body : pystr)
| St_subheader (body : pystr)
| St_success (body : pystr)
| St_warning (body : pystr)
| St_error (body : pystr)
| St_info (body : json)
| St_caption (body : pystr)
| St_divider
| St_text_input (label type : pystr)
| St_text_area (label placeholder : pystr) (height : Z)
| St_file_uploader (label : pystr) (types : list pystr)
| St_button (label : pystr) (primary : bool)
| St_status (label : pystr)
| Status_update (label state : pystr) (expanded : option bool)
| St_code (body : json) (language : option pystr)
| St_expander (label : pystr)
| St_write (body : list segment)
| St_download_button (label : pystr) (data : json) (file_name : pystr)
| St_stop
| St_rerun.

(** What the user and the environment give one run of the script: the
    two environment variables (read with the default [""]), the values of
    the widgets, the uploaded file as what [read().decode("utf-8")] makes
    of it, and what constructing the OpenAI client with a key does. *)
Record page_inputs := {
  env_openai_key : pystr;
  env_rpc_url : pystr;
  typed_key : pystr;
  refresh_clicked : bool;
  issue_desc : pystr;
  uploaded_log : option (result pystr);
  analyse_clicked : bool;
  make_client : pystr -> result chat_client
}.

(** The state of a run: the world of the helpers and the calls made to
    Streamlit so far. *)
Record page_state := { world : World; ui : list ui_call }.

(** How a stretch of the script ends: it goes on with a value, it is
    halted by [st.stop()], it asks for a rerun, or an exception escapes. *)
Inductive flow (A : Type) :=
| Next (a : A)
| Stopped
| Rerun
| Crashed (c : crash).
Arguments Next {A}.
Arguments Stopped {A}.
Arguments Rerun {A}.
Arguments Crashed {A}.

Definition Script (A : Type) : Type := page_state -> flow A * page_state.

Definition sret {A : Type} (a : A) : Script A := fun s => (Next a, s).

Definition sbind {A B : Type} (c : Script A) (k : A -> Script B) : Script B :=
  fun s =>
    match c s with
    | (Next a, s') => k a s'
    | (Stopped, s') => (Stopped, s')
    | (Rerun, s') => (Rerun, s')
    | (Crashed e, s') => (Crashed e, s')
    end.

Notation "x <~ c ;; k" := (sbind c (fun x => k))
  (at level 61, c at next level, right associativity).
Notation "c ;;; k" := (sbind c (fun _ => k))
  (at level 61, right associativity).

Definition emit (c : ui_call) (s : page_state) : page_state :=
  {| world := world s; ui := ui s ++ [c] |}.

(** A Streamlit call that draws something. *)
Definition st (c : ui_call) : Script unit := fun s => (Next tt, emit c s).

Definition st_stop {A : Type} : Script A := fun s => (Stopped, emit St_stop s).
Definition st_rerun {A : Type} : Script A := fun s => (Rerun, emit St_rerun s).

(** A helper run from the script; what it raises escapes. *)
Definition helper {A : Type} (c : M A) : Script A :=
  fun s =>
    match c (world s) with
    | (inr a, w) => (Next a, {| world := w; ui := ui s |})
    | (inl e, w) => (Crashed (uncaught e), {| world := w; ui := ui s |})
    end.

(** An expression of the script that may raise. *)
Definition eval {A : Type} (r : crash + A) : Script A :=
  fun s =>
    match r with
    | inr a => (Next a, s)
    | inl c => (Crashed c, s)
    end.

Definition nonempty (s : pystr) : bool :=
  match s with [] => false | _ => true end.

Definition page_css : pystr :=
  lit "\n    <style>\n"
  ++ lit "    .bug-card {\n"
  ++ lit "        background-color: #f9f9f9;\n"
  ++ lit "        border-left: 5px solid #673ab7;\n"
  ++ lit "        padding: 20px;\n"
  ++ lit "        border-radius: 8px;\n"
  ++ lit "        margin-top: 20px;\n"
  ++ lit "        color: #333;\n"
  ++ lit "    }\n"
  ++ lit "    .status-indicator {\n"
  ++ lit "        padding: 10px;\n"
  ++ lit "        border-radius: 5px;\n"
  ++ lit "        background-color: #f0f2f6;\n"
  ++ lit "        margin-bottom: 10px;\n"
  ++ lit "        font-weight: 500;\n"
  ++ lit "    }\n"
  ++ lit "    </style>\n".

(** Lines 13 to 39: page configuration and style sheet. *)
Definition page_setup : Script unit :=
  st (St_set_page_config (py "NodeGuard | Support Dashboard") (py "⚡")
        (py "wide")) ;;;
  st (St_markdown [Text page_css] true).

(** Lines 134 to 145: the health indicator of the sidebar. *)
Definition infrastructure_status (rpc_url : pystr) : Script unit :=
  if nonempty rpc_url then
    r <~ helper (check_rpc_status (Some rpc_url)) ;;
    if fst r then
      st (St_markdown [Text (py "🟢 **RPC Endpoint Online**")] false) ;;;
      st (St_caption (py "Latency: " ++ snd r))
    else
      st (St_markdown [Text (py "🔴 **RPC Endpoint Offline**")] false) ;;;
      st (St_caption (py "Error: " ++ snd r))
  else st (St_info (JStr (py "⚪ RPC URL Not Configured"))).

(** Lines 118 to 149: the sidebar; its value is [api_key]. *)
Definition sidebar (inp : page_inputs) : Script pystr :=
  st (St_header (py "🛡️ NodeGuard")) ;;;
  api_key <~ (if nonempty (env_openai_key inp) then
                st (St_success (py "🔑 OpenAI API Key: Loaded")) ;;;
                sret (env_openai_key inp)
              else
                st (St_warning (py "⚠️ OpenAI API Key: Missing")) ;;;
                st (St_text_input (py "Enter Key") (py "password")) ;;;
                sret (typed_key inp)) ;;
  st St_divider ;;;
  st (St_markdown [Text (py "### Infrastructure Status")] false) ;;;
  infrastructure_status (env_rpc_url inp) ;;;
  st St_divider ;;;
  st (St_button (py "Refresh Status") false) ;;;
  if refresh_clicked inp then st_rerun else sret api_key.

(** Lines 152 to 165: title and the two inputs. *)
Definition main_interface : Script unit :=
  st (St_title (py "⚡ Blockchain Support Agent")) ;;;
  st (St_markdown [Text (py "Provide the issue details below.")] false) ;;;
  st (St_subheader (py "1. Issue Description")) ;;;
  st (St_text_area (py "Paste the customer's message or error description:")
        (py "e.g. Getting -32000 execution reverted on estimateGas...")
        200) ;;;
  st (St_subheader (py "2. Upload Artifacts")) ;;;
  st (St_file_uploader (py "Upload Log File (txt/json/log)")
        [py "txt"; py "log"; py "json"]).

(** Lines 216 to 218: one [st.write] per step. *)
Fixpoint write_steps (steps : list json) : Script unit :=
  match steps with
  | [] => sret tt
  | step :: rest =>
      st (St_write [Text (py "- "); Shown step]) ;;; write_steps rest
  end.

(** Lines 232 to 240: the text of the bug-report card. *)
Definition bug_card (report : json) : crash + list segment :=
  match report with
  | JObj kvs =>
      match severity_cell kvs with
      | inl e => inl (uncaught e)
      | inr sev =>
          inr [Text (lit "\n            <div class='bug-card'>\n                <h3 style='margin-top:0; color:#673ab7;'>🐛 ");
               Shown (match Json.dict_get (py "title") kvs with
                      | Some v => v
                      | None => JStr (py "Untitled")
                      end);
               Text (lit "</h3>\n                <p><strong>Category:</strong> ");
               Shown (match Json.dict_get (py "category") kvs with
                      | Some v => v
                      | None => JStr (py "General")
                      end);
               Text (lit " | \n                   <strong>Severity:</strong> ");
               Text sev;
               Text (lit "</p>\n                <hr>\n                <p>");
               Shown (match Json.dict_get (py "description") kvs with
                      | Some v => v
                      | None => JStr (py "No description.")
                      end);
               Text (lit "</p>\n            </div>\n            ")]
      end
  | _ => inl (attribute_error report (py "get"))
  end.

(** Lines 206 to 248: the result sections. *)
Definition display_results (result : json) : Script unit :=
  if truthy result then
    st St_divider ;;;
    st (St_subheader (py "🔍 Root Cause Analysis")) ;;;
    summary <~ eval (py_get result (py "analysis_summary")
                       (JStr (py "No summary returned."))) ;;
    st (St_info summary) ;;;
    steps <~ eval (py_get result (py "suggested_steps") (JArr [])) ;;
    (if truthy steps then
       st (St_expander (py "✅ Remediation Steps")) ;;;
       items <~ eval (py_iter steps) ;;
       write_steps items
     else sret tt) ;;;
    report <~ eval (py_get result (py "bug_report") (JObj [])) ;;
    (if truthy report then
       card <~ eval (bug_card report) ;;
       st (St_markdown card true)
     else sret tt) ;;;
    required <~ eval (py_get result (py "script_required") JNull) ;;
    (if truthy required then
       script <~ eval (py_get result (py "python_script") JNull) ;;
       if truthy script then
         st (St_subheader (py "🐍 Fix Script")) ;;;
         code <~ eval (py_item result (py "python_script")) ;;
         st (St_code code (Some (py "python"))) ;;;
         data <~ eval (py_item result (py "python_script")) ;;
         st (St_download_button (py "Download Script") data (py "fix.py"))
       else sret tt
     else sret tt)
  else sret tt.

(** Lines 170 to 188: validation, client and log text. *)
Definition prepare (inp : page_inputs) (api_key : pystr)
  : Script (chat_client * pystr) :=
  (if nonempty api_key then sret tt
   else st (St_error (py "❌ OpenAI API Key is missing.")) ;;; st_stop) ;;;
  (if negb (nonempty (issue_desc inp))
      && match uploaded_log inp with Some _ => false | None => true end
   then st (St_warning
              (py "⚠️ Please provide an issue description or a log file."))
        ;;; st_stop
   else sret tt) ;;;
  client <~ match make_client inp api_key with
            | inr c => sret c
            | inl e =>
                st (St_error (py "Failed to initialise OpenAI Client: "
                                ++ exn_str e)) ;;; st_stop
            end ;;
  log_text <~ match uploaded_log inp with
              | Some (inr text) => sret text
              | Some (inl e) => eval (inl (uncaught e))
              | None => sret []
              end ;;
  sret (client, log_text).

(** Lines 192 to 203: the analysis under its status container. *)
Definition analyse (client : chat_client) (desc log_text : pystr)
  : Script json :=
  st (St_status (py "🤖 Analysing...")) ;;;
  result <~ helper (analyze_issue client (py "gpt-4.1-mini") desc log_text) ;;
  failed <~ eval (py_in (py "error") result) ;;
  (if failed then
     st (Status_update (py "Analysis Failed") (py "error") None) ;;;
     st (St_error (py "AI Error Occurred:")) ;;;
     message <~ eval (py_item result (py "error")) ;;
     st (St_code message None) ;;;
     st_stop
   else
     st (Status_update (py "Analysis Complete") (py "complete") (Some false))) ;;;
  sret result.

(** Lines 168 to 248: what a click on the analyse button runs. *)
Definition run_analysis (inp : page_inputs) (api_key : pystr) : Script unit :=
  ready <~ prepare inp api_key ;;
  result <~ analyse (fst ready) (issue_desc inp) (snd ready) ;;
  display_results result.

(** The whole script, top to bottom. *)
Definition page (inp : page_inputs) : Script unit :=
  page_setup ;;;
  api_key <~ sidebar inp ;;
  main_interface ;;;
  st (St_button (py "🚀 Analyse Support Request") true) ;;;
  if analyse_clicked inp then run_analysis inp api_key else sret tt.

(** A run of the script from a world, on a blank page. *)
Definition run_page (inp : page_inputs) (w : World)
  : flow unit * page_state :=
  page inp {| world := w; ui := [] |}.

(** Counting the calls of one kind in a world's log. *)
Definition is_chat_call (ev : event) : bool :=
  match ev with Call_chat_create _ => true | _ => false end.

Definition is_post_call (ev : event) : bool :=
  match ev with Call_requests_post _ => true | _ => false end.

Definition is_parse_call (ev : event) : bool :=
  match ev with
  | Call_json_loads _ | Call_re_search _ => true
  | _ => false
  end.

Definition chat_calls (w : World) : nat :=
  length (filter is_chat_call (calls w)).

Definition post_calls (w : World) : nat :=
  length (filter is_post_call (calls w)).

(** The world [w] with more calls logged and nothing else changed. *)
Definition logged (w : World) (more : list event) : World :=
  {| clock := clock w; reads := reads w; network := network w;
     calls := calls w ++ more |}.

(** [api_key] as the sidebar leaves it: the environment's key, or the
    one typed in when the environment has none. *)
Definition api_key_of (inp : page_inputs) : pystr :=
  if nonempty (env_openai_key inp) then env_openai_key inp
  else typed_key inp.

(** The run gets as far as the analysis: the analyse button was
    clicked (and no refresh asked), there is a key, there is a
    description or an upload, the client could be built and the upload
    decoded. *)
Definition reaches_analysis (inp : page_inputs) : bool :=
  analyse_clicked inp
  && negb (refresh_clicked inp)
  && nonempty (api_key_of inp)
  && (nonempty (issue_desc inp)
      || match uploaded_log inp with Some _ => true | None => false end)
  && match make_client inp (api_key_of inp) with
     | inr _ => true
     | inl _ => false
     end
  && match uploaded_log inp with Some (inl _) => false | _ => true end.

(** A call that shows a part of an analysis: summary, steps, card or
    script. *)
Definition shows_result (c : ui_call) : bool :=
  match c with
  | St_info _ | St_expander _ | St_write _ | St_code _ (Some _)
  | St_download_button _ _ _ => true
  | St_markdown _ html => html
  | _ => false
  end.

(** A run in which the analyse button was clicked, with a key in the
    environment, a description and no upload, for a given client. *)
Definition sample_inputs (client : chat_client) : page_inputs :=
  {| env_openai_key := py "sk-test";
     env_rpc_url := [];
     typed_key := [];
     refresh_clicked := false;
     issue_desc := py "eth_call reverts";
     uploaded_log := None;
     analyse_clicked := true;
     make_client := fun _ => inr client |}.

(** A blank page in the idle world. *)
Definition blank_page : page_state := {| world := idle_world; ui := [] |}.

(** * Properties *)

(** ** Strings *)

Lemma strip_prefix_app (p s : pystr) : Str.strip_prefix p (p ++ s) = Some s.
Proof.
  induction p as [|a p IH]; simpl; [reflexivity|].
  now rewrite N.eqb_refl.
Qed.

Lemma strip_prefix_inv (p s r : pystr) :
  Str.strip_prefix p s = Some r -> s = p ++ r.
Proof.
  revert s; induction p as [|a p IH]; intros s H; simpl in *.
  - now inversion H.
  - destruct s as [|b s]; [discriminate|].
    destruct (N.eqb_spec a b); [|discriminate].
    subst; f_equal; auto.
Qed.

Lemma eqb_eq (a b : pystr) : Str.eqb a b = true <-> a = b.
Proof.
  unfold Str.eqb; destruct (list_eq_dec N.eq_dec a b); split; congruence.
Qed.

Lemma of_uint_digits (d : Decimal.uint) :
  forallb Str.is_digit (Str.of_uint d) = true.
Proof. induction d; simpl; auto. Qed.

Lemma of_N_digits (n : N) : forallb Str.is_digit (Str.of_N n) = true.
Proof. apply of_uint_digits. Qed.

Lemma of_N_nonempty (n : N) : Str.of_N n <> [].
Proof.
  unfold Str.of_N; destruct n as [|p]; simpl; [discriminate|].
  pose proof (DecimalPos.Unsigned.to_uint_nonnil p) as H.
  destruct (Pos.to_uint p); simpl; congruence.
Qed.

(** ** The matcher against the declarative reading of patterns *)

Section MatcherFacts.

Context {A : Type}.
Implicit Types (k : pystr -> option A) (c : Re.cset).

Lemma star_greedy_sound c s k x :
  Re.star_greedy c s k = Some x ->
  exists w s', s = w ++ s' /\ forallb (Re.in_cset c) w = true /\ k s' = Some x.
Proof.
  induction s as [|a s IH]; simpl; intros H.
  - exists [], []; auto.
  - destruct (Re.in_cset c a) eqn:Ca.
    + destruct (Re.star_greedy c s k) as [y|] eqn:G.
      * inversion H; subst y.
        destruct (IH eq_refl) as (w & s' & -> & Hw & Hk).
        exists (a :: w), s'; simpl; rewrite Ca; auto.
      * exists [], (a :: s); auto.
    + exists [], (a :: s); auto.
Qed.

Lemma star_lazy_sound c s k x :
  Re.star_lazy c s k = Some x ->
  exists w s', s = w ++ s' /\ forallb (Re.in_cset c) w = true /\ k s' = Some x.
Proof.
  induction s as [|a s IH]; simpl; intros H.
  - destruct (k []) eqn:K; [|discriminate].
    exists [], []; split; [reflexivity|]; split; [reflexivity|congruence].
  - destruct (k (a :: s)) eqn:K.
    + exists [], (a :: s); split; [reflexivity|]; split; [reflexivity|congruence].
    + destruct (Re.in_cset c a) eqn:Ca; [|discriminate].
      destruct (IH H) as (w & s' & -> & Hw & Hk).
      exists (a :: w), s'; simpl; rewrite Ca; auto.
Qed.

Lemma star_greedy_complete c w s' k x :
  forallb (Re.in_cset c) w = true -> k s' = Some x ->
  exists y, Re.star_greedy c (w ++ s') k = Some y.
Proof.
  intros Hw Hk; induction w as [|a w IH]; simpl in *.
  - destruct s' as [|b s']; simpl.
    + eauto.
    + destruct (Re.in_cset c b); [|eauto].
      destruct (Re.star_greedy c s' k); eauto.
  - apply andb_true_iff in Hw as [Ca Hw]; rewrite Ca.
    destruct (IH Hw) as [y ->]; eauto.
Qed.

Lemma star_lazy_complete c w s' k x :
  forallb (Re.in_cset c) w = true -> k s' = Some x ->
  exists y, Re.star_lazy c (w ++ s') k = Some y.
Proof.
  intros Hw Hk; induction w as [|a w IH]; simpl in *.
  - destruct s' as [|b s']; simpl; rewrite Hk; eauto.
  - apply andb_true_iff in Hw as [Ca Hw]; rewrite Ca.
    destruct (k (a :: w ++ s')); eauto.
Qed.

Lemma firstn_consumed (w s' : pystr) :
  firstn (length (w ++ s') - length s') (w ++ s') = w.
Proof.
  rewrite length_app, Nat.add_sub.
  rewrite firstn_app, Nat.sub_diag, firstn_all; simpl.
  apply app_nil_r.
Qed.

Lemma run_sound r : forall s g (k : pystr -> option pystr -> option A) x,
  Re.run r s g k = Some x ->
  exists w s' g', s = w ++ s' /\ Re.matches r w g g' /\ k s' g' = Some x.
Proof.
  induction r as [cs|c|r1 IH1 r2 IH2|r IH|c|c|r IH]; simpl; intros s g k x H.
  - destruct (Str.strip_prefix cs s) as [s'|] eqn:P; [|discriminate].
    apply strip_prefix_inv in P.
    exists cs, s', g; repeat split; auto; constructor.
  - destruct s as [|a s]; [discriminate|].
    destruct (Re.in_cset c a) eqn:Ca; [|discriminate].
    exists [a], s, g; repeat split; auto; now constructor.
  - apply IH1 in H as (w1 & s1 & g1 & -> & M1 & H).
    apply IH2 in H as (w2 & s2 & g2 & -> & M2 & H).
    exists (w1 ++ w2), s2, g2; rewrite app_assoc; repeat split; auto.
    econstructor; eauto.
  - destruct (Re.run r s g k) as [y|] eqn:R.
    + inversion H; subst y.
      apply IH in R as (w & s' & g' & -> & M & K).
      exists w, s', g'; repeat split; auto; now constructor.
    + exists [], s, g; repeat split; auto; apply Re.M_OptNone.
  - apply star_greedy_sound in H as (w & s' & -> & Hw & K).
    exists w, s', g; repeat split; auto; now constructor.
  - apply star_lazy_sound in H as (w & s' & -> & Hw & K).
    exists w, s', g; repeat split; auto; now constructor.
  - apply IH in H as (w & s' & g' & -> & M & K).
    rewrite firstn_consumed in K.
    exists w, s', (Some w); repeat split; auto; econstructor; eauto.
Qed.

Lemma run_complete r w g g' :
  Re.matches r w g g' ->
  forall s' (k : pystr -> option pystr -> option A) x,
    k s' g' = Some x -> exists y, Re.run r (w ++ s') g k = Some y.
Proof.
  induction 1 as [cs g|c a g Ca|r1 r2 w1 w2 g g1 g2 _ IH1 _ IH2
                  |r w g g' _ IH|r g|c w g Hw|c w g Hw|r w g g' _ IH];
    intros s' k x K; simpl.
  - rewrite strip_prefix_app; eauto.
  - rewrite Ca; eauto.
  - rewrite <- app_assoc.
    destruct (IH2 s' k x K) as [y Hy].
    exact (IH1 (w2 ++ s') _ y Hy).
  - destruct (IH s' k x K) as [y ->]; eauto.
  - destruct (Re.run r s' g k); eauto.
  - eapply star_greedy_complete; eauto.
  - eapply star_lazy_complete; eauto.
  - eapply IH with (x := x).
    now rewrite firstn_consumed.
Qed.

End MatcherFacts.

Lemma star_lazy_shortest {A : Type} (c : Re.cset) (s : pystr)
      (k : pystr -> option A) (x : A) :
  Re.star_lazy c s k = Some x ->
  exists w s',
    s = w ++ s' /\ k s' = Some x
    /\ forall w' s'', s = w' ++ s'' -> (length w' < length w)%nat ->
                      k s'' = None.
Proof.
  induction s as [|a s IH]; simpl; intros H.
  - destruct (k []) eqn:K; [|discriminate].
    exists [], []; repeat split; [congruence|].
    intros w' s'' _ L; simpl in L; lia.
  - destruct (k (a :: s)) eqn:K.
    + exists [], (a :: s); repeat split; [congruence|].
      intros w' s'' _ L; simpl in L; lia.
    + destruct (Re.in_cset c a); [|discriminate].
      destruct (IH H) as (w & s' & -> & Hk & Hmin).
      exists (a :: w), s'; repeat split; auto.
      intros [|b w'] s'' E L; simpl in *.
      * now subst s''.
      * inversion E; subst. apply (Hmin w' s''); auto; lia.
Qed.

Lemma search_some r s m :
  Re.search r s = Some m ->
  exists pre s',
    s = pre ++ s' /\ Re.match_at r s' = Some m
    /\ forall pre' s'', s = pre' ++ s'' -> (length pre' < length pre)%nat ->
                        Re.match_at r s'' = None.
Proof.
  induction s as [|a s IH]; simpl; intros H.
  - destruct (Re.match_at r []) eqn:E; [|discriminate].
    exists [], []; repeat split; [congruence|].
    intros pre' s'' _ L; simpl in L; lia.
  - destruct (Re.match_at r (a :: s)) eqn:E.
    + exists [], (a :: s); repeat split; [congruence|].
      intros pre' s'' _ L; simpl in L; lia.
    + destruct (IH H) as (pre & s' & -> & Hm & Hmin).
      exists (a :: pre), s'; repeat split; auto.
      intros [|b pre'] s'' Heq L; simpl in *.
      * now subst s''.
      * inversion Heq; subst. apply (Hmin pre' s''); auto; lia.
Qed.

Lemma search_none r s :
  Re.search r s = None ->
  forall pre s', s = pre ++ s' -> Re.match_at r s' = None.
Proof.
  induction s as [|a s IH]; simpl; intros H pre s' Heq.
  - destruct (Re.match_at r []) eqn:E; [discriminate|].
    destruct pre; [|discriminate]. simpl in Heq; now subst.
  - destruct (Re.match_at r (a :: s)) eqn:E; [discriminate|].
    destruct pre as [|b pre]; simpl in Heq.
    + now subst.
    + inversion Heq; subst. eapply IH; eauto.
Qed.

(** ** The decoder never exhausts its budget *)

Lemma skip_ws_length (s : pystr) : (length (Json.skip_ws s) <= length s)%nat.
Proof.
  induction s as [|c s IH]; simpl; [lia|].
  destruct (Json.is_ws c); simpl; lia.
Qed.

Lemma hex4_length (s r : pystr) (c : N) :
  Json.hex4 s = Some (c, r) -> length s = (4 + length r)%nat.
Proof.
  unfold Json.hex4.
  destruct s as [|a [|b [|c' [|d s]]]]; try discriminate.
  destruct (Json.hex_digit a), (Json.hex_digit b), (Json.hex_digit c'),
    (Json.hex_digit d); try discriminate.
  intros H; inversion H; subst; reflexivity.
Qed.

Lemma progressed_weaken {A : Type} (s s' : pystr) (p : Json.pres A) :
  (length s' <= length s)%nat -> progressed s' p -> progressed s p.
Proof. destruct p; simpl; auto; lia. Qed.

Lemma scanstring_progress (fuel : nat) :
  forall begin s acc,
    (length s < fuel)%nat -> progressed s (Json.scanstring fuel begin s acc).
Proof.
  induction fuel as [|n IH]; intros begin s acc Hf; [lia|].
  assert (REC : forall s' acc', (length s' < length s)%nat ->
                progressed s (Json.scanstring n begin s' acc')).
  { intros s' acc' L. apply progressed_weaken with s'; [lia|].
    apply IH; lia. }
  simpl. destruct s as [|c r]; simpl; [exact I|].
  destruct (c =? 34); [simpl; lia|].
  destruct (c =? 92).
  - destruct r as [|e r1]; simpl; [exact I|].
    destruct (e =? 117).
    + match goal with |- context [if ?b then Json.PErr _ _ else _] =>
        destruct b end; [exact I|].
      destruct (Json.hex4 r1) as [[c1 r2]|] eqn:H1; [|exact I].
      apply hex4_length in H1.
      assert (R2 : forall acc', progressed (c :: e :: r1)
                                  (Json.scanstring n begin r2 acc')).
      { intros acc'; apply REC; simpl; lia. }
      destruct (Json.is_high_surrogate c1 && _); [|apply R2].
      destruct r2 as [|b [|u r3]]; try apply R2.
      destruct ((b =? 92) && (u =? 117)); [|apply R2].
      destruct (Json.hex4 r3) as [[c2 r4]|] eqn:H2; [|exact I].
      apply hex4_length in H2.
      destruct (Json.is_low_surrogate c2); [|apply R2].
      apply REC; simpl in *; lia.
    + destruct (Json.simple_escape e); [|exact I].
      apply REC; simpl; lia.
  - destruct (c <=? 31); [exact I|].
    apply REC; simpl; lia.
Qed.

Lemma strip_prefix_length (p s r : pystr) :
  Str.strip_prefix p s = Some r -> length s = (length p + length r)%nat.
Proof.
  intros H; apply strip_prefix_inv in H; subst; apply length_app.
Qed.

Lemma take_digits_length (s : pystr) :
  (length (snd (Json.take_digits s)) <= length s)%nat.
Proof.
  induction s as [|c s IH]; simpl; [lia|].
  destruct (Str.is_digit c); simpl; [|lia].
  destruct (Json.take_digits s); simpl in *; lia.
Qed.

Lemma match_integer_length (s ip r : pystr) :
  Json.match_integer s = Some (ip, r) -> (length r < length s)%nat.
Proof.
  unfold Json.match_integer; destruct s as [|c s]; [discriminate|].
  destruct (c =? 48); [intros H; inversion H; subst; simpl; lia|].
  destruct (Str.is_digit c) eqn:D; [|discriminate].
  simpl; rewrite D.
  pose proof (take_digits_length s) as L.
  destruct (Json.take_digits s); intros H; inversion H; subst; simpl in *; lia.
Qed.

Lemma match_frac_length (s ds r : pystr) :
  Json.match_frac s = Some (ds, r) -> (length r <= length s)%nat.
Proof.
  unfold Json.match_frac; destruct s as [|c [|d s]]; try discriminate.
  destruct ((c =? 46) && Str.is_digit d); [|discriminate].
  pose proof (take_digits_length (d :: s)) as L.
  destruct (Json.take_digits (d :: s)); intros H; inversion H; subst.
  simpl in *; lia.
Qed.

Lemma match_exp_length (s r : pystr) (e : Z) :
  Json.match_exp s = Some (e, r) -> (length r <= length s)%nat.
Proof.
  unfold Json.match_exp; destruct s as [|c s]; [discriminate|].
  destruct (_ || _); [|discriminate].
  destruct s as [|sg s']; [|destruct (sg =? 45); [|destruct (sg =? 43)]];
    cbv beta iota zeta;
    match goal with
    | |- context [Json.take_digits ?x] =>
        pose proof (take_digits_length x) as L;
        destruct (Json.take_digits x) as [[|d ds] r2]
    end; try discriminate;
    intros H; inversion H; subst; simpl in *; lia.
Qed.

Lemma match_number_length (s r : pystr) (v : result json) :
  Json.match_number s = Some (v, r) -> (length r < length s)%nat.
Proof.
  unfold Json.match_number.
  destruct s as [|c s']; [|destruct (c =? 45)]; cbv beta iota zeta;
    (match goal with
     | |- context [Json.match_integer ?x] =>
         destruct (Json.match_integer x) as [[ip s2]|] eqn:I;
         [apply match_integer_length in I|discriminate]
     end;
     destruct (Json.match_frac s2) as [[ds s3]|] eqn:F;
     [apply match_frac_length in F|];
     cbv beta iota zeta;
     (match goal with
      | |- context [Json.match_exp ?x] =>
          destruct (Json.match_exp x) as [[ex s4]|] eqn:E;
          [apply match_exp_length in E|]
      end;
      cbv beta iota zeta;
      try match goal with
          | |- context [if ?b then _ else _] => destruct b
          end;
      intros H; inversion H; subst; simpl in *; lia)).
Qed.

Lemma progressed_map {A B : Type} (s : pystr) (p : Json.pres A) (f : A -> B) :
  progressed s p ->
  progressed s match p with
               | Json.POk a r => Json.POk (f a) r
               | Json.PErr e l => Json.PErr e l
               | Json.PRaise e => Json.PRaise e
               | Json.PFuel => Json.PFuel
               end.
Proof. destruct p; simpl; auto. Qed.

Lemma scan_progress (fuel : nat) :
  (forall s, (2 * length s + 1 <= fuel)%nat ->
             progressed s (Json.scan_once fuel s))
  /\ (forall s acc, (2 * length s + 2 <= fuel)%nat ->
                    progressed s (Json.parse_array fuel s acc))
  /\ (forall s acc, (2 * length s + 2 <= fuel)%nat ->
                    progressed s (Json.parse_object fuel s acc)).
Proof.
  induction fuel as [|n (IHs & IHa & IHo)].
  - repeat split; intros; lia.
  - repeat split.
    + intros s Hf. destruct s as [|c r]; [exact I|].
      cbn [Json.scan_once].
      destruct (c =? 34).
      { apply progressed_map.
        apply progressed_weaken with r; [simpl; lia|].
        apply scanstring_progress; simpl in *; lia. }
      pose proof (skip_ws_length r) as L.
      destruct (c =? 123).
      { assert (P : forall acc, progressed (c :: r)
                       (Json.parse_object n (Json.skip_ws r) acc)).
        { intros acc0. apply progressed_weaken with (Json.skip_ws r); [simpl; lia|].
          apply IHo; simpl in *; lia. }
        cbv zeta. destruct (Json.skip_ws r) as [|c1 r1] eqn:E; [apply P|].
        destruct (c1 =? 125); [simpl in *; lia|apply P]. }
      destruct (c =? 91).
      { assert (P : forall acc, progressed (c :: r)
                       (Json.parse_array n (Json.skip_ws r) acc)).
        { intros acc0. apply progressed_weaken with (Json.skip_ws r); [simpl; lia|].
          apply IHa; simpl in *; lia. }
        cbv zeta. destruct (Json.skip_ws r) as [|c1 r1] eqn:E; [apply P|].
        destruct (c1 =? 93); [simpl in *; lia|apply P]. }
      repeat match goal with
             | |- context [Str.strip_prefix ?p ?s] =>
                 let H := fresh "SP" in
                 destruct (Str.strip_prefix p s) eqn:H;
                 [apply strip_prefix_length in H; vm_compute (length p) in H|]
             end; try (unfold progressed; lia).
      destruct (Json.match_number (c :: r)) as [[[e|v] r']|] eqn:MN;
        [exact I| |exact I].
      apply match_number_length in MN. exact MN.
    + intros s acc Hf. cbn [Json.parse_array].
      pose proof (IHs s ltac:(lia)) as P.
      destruct (Json.scan_once n s) as [v r|e l|e|]; [|exact I|exact I|exact P].
      simpl in P. cbv zeta.
      pose proof (skip_ws_length r) as L.
      destruct (Json.skip_ws r) as [|c r2]; [exact I|].
      destruct (c =? 93); [simpl in *; lia|].
      destruct (c =? 44); [|exact I].
      pose proof (skip_ws_length r2) as L2.
      apply progressed_weaken with (Json.skip_ws r2); [simpl in *; lia|].
      apply IHa; simpl in *; lia.
    + intros s acc Hf. cbn [Json.parse_object].
      destruct s as [|c r]; [exact I|].
      destruct (c =? 34); [|exact I].
      pose proof (@scanstring_progress n (length (c :: r)) r []
                    ltac:(simpl in *; lia)) as P.
      destruct (Json.scanstring n (length (c :: r)) r []) as [key r1|e l|e|];
        [|exact I|exact I|exact P].
      simpl in P. cbv zeta.
      pose proof (skip_ws_length r1) as L1.
      destruct (Json.skip_ws r1) as [|c2 r3]; [exact I|].
      destruct (c2 =? 58); [|exact I].
      pose proof (skip_ws_length r3) as L3.
      pose proof (IHs (Json.skip_ws r3) ltac:(simpl in *; lia)) as P4.
      destruct (Json.scan_once n (Json.skip_ws r3)) as [v r4|e l|e|];
        [|exact I|exact I|exact P4].
      simpl in P4.
      pose proof (skip_ws_length r4) as L4.
      destruct (Json.skip_ws r4) as [|c5 r6]; [exact I|].
      destruct (c5 =? 125); [simpl in *; lia|].
      destruct (c5 =? 44); [|exact I].
      pose proof (skip_ws_length r6) as L6.
      apply progressed_weaken with (Json.skip_ws r6); [simpl in *; lia|].
      apply IHo; simpl in *; lia.
Qed.

Lemma decode_progress (s : pystr) : Json.decode s <> Json.PFuel.
Proof.
  unfold Json.decode. cbv zeta.
  pose proof (proj1 (scan_progress (Json.budget (Json.skip_ws s)))
                (Json.skip_ws s) ltac:(unfold Json.budget; lia)) as P.
  destruct (Json.scan_once _ _) as [v r|e l|e|];
    [|discriminate|discriminate|contradiction].
  destruct (Json.skip_ws r); discriminate.
Qed.

(** ** The fence pattern finds exactly the fenced blocks *)

Lemma fence_match_sound (s : pystr) (m : Re.match_obj) :
  Re.match_at fence_pattern s = Some m ->
  exists span, Re.group1 m = Some span /\ fenced_object s [] span.
Proof.
  unfold Re.match_at; intros H.
  apply run_sound in H as (w & post & g' & -> & M & K).
  inversion K; subst m; clear K; simpl.
  unfold fence_pattern in M.
  repeat match goal with
         | H : Re.matches (Re.Cat _ _) _ _ _ |- _ => inversion H; subst; clear H
         | H : Re.matches (Re.Lit _) _ _ _ |- _ => inversion H; subst; clear H
         | H : Re.matches (Re.Star _) _ _ _ |- _ => inversion H; subst; clear H
         | H : Re.matches (Re.StarLazy _) _ _ _ |- _ => inversion H; subst; clear H
         | H : Re.matches (Re.Group _) _ _ _ |- _ => inversion H; subst; clear H
         | H : Re.matches (Re.Opt _) _ _ _ |- _ => inversion H; subst; clear H
         end;
    (eexists; split; [reflexivity|]);
    [exists (py "json"), w2, w3, w4, post | exists [], w2, w3, w4, post];
    (split; [repeat rewrite <- app_assoc; reflexivity|]); auto.
Qed.

Lemma fence_matches (tag ws1 body ws2 : pystr) :
  tag = [] \/ tag = py "json" ->
  forallb Re.is_space ws1 = true -> forallb Re.is_space ws2 = true ->
  Re.matches fence_pattern
    (py "```" ++ tag ++ ws1 ++ (py "{" ++ body ++ py "}") ++ ws2 ++ py "```")
    None (Some (py "{" ++ body ++ py "}")).
Proof.
  intros Ht H1 H2; unfold fence_pattern.
  apply Re.M_Cat with (g1 := None); [constructor|].
  apply Re.M_Cat with (g1 := None).
  { destruct Ht as [-> | ->]; [apply Re.M_OptNone|apply Re.M_OptSome; constructor]. }
  apply Re.M_Cat with (g1 := None); [now constructor|].
  apply Re.M_Cat with (g1 := Some (py "{" ++ body ++ py "}")).
  { apply Re.M_Group with (g' := None).
    apply Re.M_Cat with (g1 := None); [constructor|].
    apply Re.M_Cat with (g1 := None); [|constructor].
    constructor. clear; induction body; simpl; auto. }
  apply Re.M_Cat with (g1 := Some (py "{" ++ body ++ py "}")); now constructor.
Qed.

Lemma fence_match_complete (s span : pystr) :
  fenced_object s [] span -> exists m, Re.match_at fence_pattern s = Some m.
Proof.
  intros (tag & ws1 & body & ws2 & post & -> & Ht & H1 & H2 & ->).
  pose proof (fence_matches tag ws1 body ws2 Ht H1 H2) as M.
  unfold Re.match_at.
  destruct (run_complete _ _ _ _ M post
              (fun _ g => Some {| Re.group1 := g |}) _ eq_refl) as [y Hy].
  exists y. rewrite <- Hy. f_equal.
  now repeat rewrite <- app_assoc.
Qed.

(** Whitespace then an opening brace can be read off a text in one way
    only. *)
Lemma spaces_then_brace (ws ws' r r' : pystr) :
  forallb Re.is_space ws = true -> forallb Re.is_space ws' = true ->
  ws ++ py "{" ++ r = ws' ++ py "{" ++ r' -> ws = ws' /\ r = r'.
Proof.
  revert ws'; induction ws as [|a ws IH]; intros [|b ws'] H H' E;
    simpl in *.
  - inversion E; auto.
  - inversion E; subst b. now destruct (andb_prop _ _ H') as [X _].
  - inversion E; subst a. now destruct (andb_prop _ _ H) as [X _].
  - inversion E; subst b.
    apply andb_prop in H as [_ H]; apply andb_prop in H' as [_ H'].
    destruct (IH ws' H H' H2) as [-> ->]; auto.
Qed.

Lemma tag_then_spaces (tag tag' ws ws' r r' : pystr) :
  tag = [] \/ tag = py "json" -> tag' = [] \/ tag' = py "json" ->
  forallb Re.is_space ws = true -> forallb Re.is_space ws' = true ->
  tag ++ ws ++ py "{" ++ r = tag' ++ ws' ++ py "{" ++ r' ->
  tag = tag' /\ ws = ws' /\ r = r'.
Proof.
  intros [-> | ->] [-> | ->] H H' E.
  - split; [reflexivity|]. now apply spaces_then_brace.
  - exfalso. destruct ws as [|a ws]; simpl in E; inversion E; subst.
    simpl in H. discriminate.
  - exfalso. destruct ws' as [|a ws']; simpl in E; inversion E; subst.
    simpl in H'. discriminate.
  - split; [reflexivity|]. apply spaces_then_brace; auto.
    now apply app_inv_head in E.
Qed.

(** At the position where the pattern matches, group 1 is the span of
    a fenced block that starts there, and the shortest such span. *)
Lemma fence_match_shortest (s : pystr) (m : Re.match_obj) :
  Re.match_at fence_pattern s = Some m ->
  exists span,
    Re.group1 m = Some span /\ fenced_object s [] span
    /\ forall span', fenced_object s [] span' ->
                     (length span <= length span')%nat.
Proof.
  intros H.
  assert (T : exists tag ws1 body rest,
             s = py "```" ++ tag ++ ws1 ++ py "{" ++ body ++ rest
             /\ (tag = [] \/ tag = py "json")
             /\ forallb Re.is_space ws1 = true
             /\ fence_closes rest
             /\ Re.group1 m = Some (py "{" ++ body ++ py "}")
             /\ forall body' rest', body ++ rest = body' ++ rest' ->
                                    (length body' < length body)%nat ->
                                    ~ fence_closes rest').
  { unfold Re.match_at, fence_pattern in H. cbn [Re.run] in H.
    destruct (Str.strip_prefix (py "```") s) as [s1|] eqn:P1; [|discriminate].
    apply strip_prefix_inv in P1; subst s.
    assert (K : exists tag s2, s1 = tag ++ s2 /\ (tag = [] \/ tag = py "json")
              /\ Re.star_greedy Re.Space s2
                   (fun s3 =>
                      match Str.strip_prefix (py "{") s3 with
                      | Some s4 =>
                          Re.star_lazy Re.AnyChar s4
                            (fun s5 =>
                               match Str.strip_prefix (py "}") s5 with
                               | Some s6 =>
                                   Re.star_greedy Re.Space s6
                                     (fun s7 =>
                                        match Str.strip_prefix (py "```") s7 with
                                        | Some _ =>
                                            Some {| Re.group1 :=
                                                      Some (firstn (length s3 - length s6) s3) |}
                                        | None => None
                                        end)
                               | None => None
                               end)
                      | None => None
                      end) = Some m).
    { destruct (Str.strip_prefix (py "json") s1) as [s2|] eqn:P2.
      - apply strip_prefix_inv in P2; subst s1.
        match type of H with
        | match ?X with _ => _ end = _ => destruct X as [y|] eqn:E
        end.
        + inversion H; subst y. exists (py "json"), s2; auto.
        + exists [], (py "json" ++ s2); auto.
      - exists [], s1; auto. }
    clear H. destruct K as (tag & s2 & -> & Ht & K).
    apply star_greedy_sound in K as (ws1 & s3 & -> & W1 & K).
    destruct (Str.strip_prefix (py "{") s3) as [s4|] eqn:P3; [|discriminate].
    apply strip_prefix_inv in P3; subst s3.
    apply star_lazy_shortest in K as (body & s5 & -> & K & Kmin).
    destruct (Str.strip_prefix (py "}") s5) as [s6|] eqn:P5; [|discriminate].
    apply strip_prefix_inv in P5; subst s5.
    apply star_greedy_sound in K as (ws2 & s7 & -> & W2 & K).
    destruct (Str.strip_prefix (py "```") s7) as [s8|] eqn:P7; [|discriminate].
    apply strip_prefix_inv in P7; subst s7.
    assert (FX : firstn
                   (length (py "{" ++ body ++ py "}" ++ ws2 ++ py "```" ++ s8)
                    - length (ws2 ++ py "```" ++ s8))
                   (py "{" ++ body ++ py "}" ++ ws2 ++ py "```" ++ s8)
                 = py "{" ++ body ++ py "}").
    { replace (py "{" ++ body ++ py "}" ++ ws2 ++ py "```" ++ s8)
        with ((py "{" ++ body ++ py "}") ++ ws2 ++ py "```" ++ s8)
        by (now rewrite <- !app_assoc).
      apply firstn_consumed. }
    rewrite FX in K. injection K as <-.
    exists tag, ws1, body, (py "}" ++ ws2 ++ py "```" ++ s8).
    split; [reflexivity|]. split; [exact Ht|]. split; [exact W1|].
    split; [exists ws2, s8; auto|]. split; [reflexivity|].
    - intros body' rest' E L (ws & post & -> & W).
      specialize (Kmin body' _ E L).
      rewrite strip_prefix_app in Kmin.
      match type of Kmin with
      | Re.star_greedy _ _ ?k = None =>
          assert (X : exists y, k (py "```" ++ post) = Some y)
            by (cbv beta; rewrite strip_prefix_app; eauto);
          destruct X as [y0 Hy0];
          destruct (star_greedy_complete Re.Space ws (py "```" ++ post)
                      k y0 W Hy0) as [y Hy]
      end.
      congruence. }
  destruct T as (tag & ws1 & body & rest & -> & Ht & W1 & (ws2 & post & -> & W2)
                 & G & Min).
  exists (py "{" ++ body ++ py "}"); split; [exact G|]. split.
  - exists tag, ws1, body, ws2, post; repeat split; auto.
    simpl. now rewrite <- !app_assoc.
  - intros span' (tag' & ws1' & body' & ws2' & post' & E & Ht' & W1' & W2' & ->).
    simpl in E. apply app_inv_head with (l := [96; 96; 96]) in E.
    rewrite <- !app_assoc in E.
    apply tag_then_spaces in E as (_ & _ & E); auto.
    destruct (Nat.le_gt_cases (length body) (length body')) as [L|L].
    + rewrite !length_app; simpl; lia.
    + exfalso. apply (Min body' (py "}" ++ ws2' ++ py "```" ++ post')); auto.
      exists ws2', post'; auto.
Qed.

Lemma fenced_object_shift (pre s span : pystr) :
  fenced_object (pre ++ s) pre span <-> fenced_object s [] span.
Proof.
  split; intros (tag & ws1 & body & ws2 & post & E & H);
    exists tag, ws1, body, ws2, post; split; auto.
  - now apply app_inv_head in E.
  - simpl in E; now rewrite E.
Qed.

Lemma fenced_object_prefix (s pre span : pystr) :
  fenced_object s pre span -> exists s', s = pre ++ s'.
Proof.
  intros (tag & ws1 & body & ws2 & post & E & _); eauto.
Qed.

(** When [re.search] finds the pattern, group 1 is the span of a fenced
    block; no fenced block starts further left, and no fenced block that
    starts at the same place has a shorter span. *)
Lemma search_fence_some (s : pystr) (m : Re.match_obj) :
  Re.search fence_pattern s = Some m ->
  exists pre span,
    Re.group1 m = Some span /\ fenced_object s pre span
    /\ (forall pre' span', fenced_object s pre' span' ->
                           (length pre <= length pre')%nat)
    /\ (forall span', fenced_object s pre span' ->
                      (length span <= length span')%nat).
Proof.
  intros H.
  apply search_some in H as (pre & s' & -> & Hm & Hmin).
  apply fence_match_shortest in Hm as (span & Hg & Hf & Hs).
  exists pre, span; repeat split; auto.
  - now apply fenced_object_shift.
  - intros pre' span' F.
    destruct (Nat.le_gt_cases (length pre) (length pre')) as [|L]; [assumption|].
    destruct (fenced_object_prefix _ _ _ F) as [s'' E].
    pose proof (Hmin pre' s'' E L) as N.
    rewrite E in F; apply fenced_object_shift in F.
    apply fence_match_complete in F as [y Hy]; congruence.
  - intros span' F. apply Hs. now apply fenced_object_shift in F.
Qed.

(** [re.search] finds nothing exactly when the text has no fenced block. *)
Lemma search_fence_none (s : pystr) :
  Re.search fence_pattern s = None <->
  (forall pre span, ~ fenced_object s pre span).
Proof.
  split.
  - intros H pre span F.
    destruct (fenced_object_prefix _ _ _ F) as [s' E].
    pose proof (search_none _ _ H pre s' E) as N.
    rewrite E in F; apply fenced_object_shift in F.
    apply fence_match_complete in F as [y Hy]; congruence.
  - intros H. destruct (Re.search fence_pattern s) as [m|] eqn:E; [|reflexivity].
    apply search_fence_some in E as (pre & span & _ & F & _).
    now apply H in F.
Qed.

(** ** [clean_json_output] *)

(** The three ways through [clean_json_output], by what the two library
    calls give. *)
Lemma clean_json_output_direct (s : pystr) (v : json) (w : World) :
  Json.loads (Some s) = inr v ->
  clean_json_output (Some s) w = (inr v, log (Call_json_loads (Some s)) w).
Proof.
  intros H; unfold clean_json_output, try_except, json_loads.
  now rewrite H.
Qed.

Lemma clean_json_output_fenced (s : pystr) (e : exn) (m : Re.match_obj)
      (w : World) :
  Json.loads (Some s) = inl e ->
  isinstance e JSONDecodeError = true ->
  Re.search fence_pattern s = Some m ->
  clean_json_output (Some s) w =
    (Json.loads (Re.group1 m),
     log (Call_json_loads (Re.group1 m))
       (log (Call_re_search (Some s)) (log (Call_json_loads (Some s)) w))).
Proof.
  intros H C S; unfold clean_json_output, try_except, json_loads.
  rewrite H. unfold caught; rewrite C.
  unfold bind, re_search; now rewrite S.
Qed.

Lemma clean_json_output_unfenced (s : pystr) (e : exn) (w : World) :
  Json.loads (Some s) = inl e ->
  isinstance e JSONDecodeError = true ->
  Re.search fence_pattern s = None ->
  clean_json_output (Some s) w =
    (inl (Exn ValueError (py "The AI response could not be parsed as JSON.")),
     log (Call_re_search (Some s)) (log (Call_json_loads (Some s)) w)).
Proof.
  intros H C S; unfold clean_json_output, try_except, json_loads.
  rewrite H. unfold caught; rewrite C.
  unfold bind, re_search; now rewrite S.
Qed.

(** An error of the first [json.loads] that the [except] clause does not
    name leaves the function as it is; the search is not run. *)
Lemma clean_json_output_uncaught (t : option pystr) (e : exn) (w : World) :
  Json.loads t = inl e ->
  isinstance e JSONDecodeError = false ->
  clean_json_output t w = (inl e, log (Call_json_loads t) w).
Proof.
  intros H C; unfold clean_json_output, try_except, json_loads.
  rewrite H. unfold caught; now rewrite C.
Qed.

(** C1. Whenever the whole text parses as JSON, [clean_json_output]
    returns that value, whatever its kind (object, array, scalar), and the
    only library call made is the one [json.loads] of the whole text: the
    fence search is not run, even when it would have found a block. *)
Theorem clean_json_output_primary_path (s : pystr) (v : json) (w : World) :
  Json.loads (Some s) = inr v ->
  clean_json_output (Some s) w = (inr v, log (Call_json_loads (Some s)) w)
  /\ calls (snd (clean_json_output (Some s) w))
     = calls w ++ [Call_json_loads (Some s)].
Proof.
  intros H; rewrite (clean_json_output_direct s v w H); auto.
Qed.

(** A JSON string whose text holds a fenced block: both paths would
    succeed, with different values; the primary one is taken. *)
Lemma clean_json_output_primary_path_witness :
  Json.loads (Some (lit "'```{}```'")) = inr (JStr (py "```{}```"))
  /\ (exists m, Re.search fence_pattern (lit "'```{}```'") = Some m
                /\ Json.loads (Re.group1 m) = inr (JObj []))
  /\ clean_json_output (Some (lit "'```{}```'")) idle_world
     = (inr (JStr (py "```{}```")),
        log (Call_json_loads (Some (lit "'```{}```'"))) idle_world).
Proof.
  split; [vm_compute; reflexivity|].
  split; [exists {| Re.group1 := Some (py "{}") |};
          split; vm_compute; reflexivity|].
  apply (clean_json_output_primary_path (lit "'```{}```'")
           (JStr (py "```{}```")) idle_world); vm_compute; reflexivity.
Defined.

Example clean_json_output_array :
  forall w, fst (clean_json_output (Some (lit "[1, 'x', null]")) w)
            = inr (JArr [JInt 1; JStr (py "x"); JNull]).
Proof.
  intros w; rewrite (clean_json_output_direct _
                       (JArr [JInt 1; JStr (py "x"); JNull]) w);
    [reflexivity|vm_compute; reflexivity].
Qed.

Example clean_json_output_scalar :
  forall w, fst (clean_json_output (Some (py "42")) w) = inr (JInt 42).
Proof.
  intros w; rewrite (clean_json_output_direct _ (JInt 42) w);
    [reflexivity|vm_compute; reflexivity].
Qed.

(** C2 (as the code has it).  When [json.loads] of the whole text
    raises a [JSONDecodeError], [clean_json_output] runs the fence
    search; if it finds a match, group 1 is the span of a fenced block of
    the text (three backticks, optional [json] tag, whitespace, brace to
    brace across any characters, line feeds included, whitespace, three
    backticks), no fenced block starts further left, none that starts
    there has a shorter span, and the result is whatever [json.loads]
    gives for that span.  When [json.loads] of the whole text raises an
    error of another class, that error leaves the function as it is and
    the search is not run.  For the text of the specification's example
    the result is the mapping [{"a": 1}]. *)
Theorem clean_json_output_fallback_path :
  (forall (s : pystr) (e : exn) (m : Re.match_obj) (w : World),
      Json.loads (Some s) = inl e ->
      isinstance e JSONDecodeError = true ->
      Re.search fence_pattern s = Some m ->
      (exists pre span,
          Re.group1 m = Some span /\ fenced_object s pre span
          /\ (forall pre' span', fenced_object s pre' span' ->
                                 (length pre <= length pre')%nat)
          /\ (forall span', fenced_object s pre span' ->
                            (length span <= length span')%nat)
          /\ fst (clean_json_output (Some s) w) = Json.loads (Some span))
      /\ calls (snd (clean_json_output (Some s) w))
         = calls w ++ [Call_json_loads (Some s); Call_re_search (Some s);
                       Call_json_loads (Re.group1 m)])
  /\ (forall (s : pystr) (e : exn) (w : World),
         Json.loads (Some s) = inl e ->
         isinstance e JSONDecodeError = false ->
         clean_json_output (Some s) w
         = (inl e, log (Call_json_loads (Some s)) w))
  /\ (forall w : World,
         fst (clean_json_output
                (Some (lit "Sure, here is the result:\n```json\n{'a': 1}\n```\n"))
                w)
         = inr (JObj [(py "a", JInt 1)])).
Proof.
  split; [|split].
  - intros s e m w H C S.
    rewrite (clean_json_output_fenced s e m w H C S); simpl.
    split; [|now rewrite <- !app_assoc].
    destruct (search_fence_some s m S) as (pre & span & G & F & L & Sh).
    exists pre, span; rewrite G; auto.
  - intros s e w H C. exact (clean_json_output_uncaught (Some s) e w H C).
  - intros w.
    rewrite (clean_json_output_fenced _
               (Json.decode_error Json.ExpectingValue
                  (lit "Sure, here is the result:\n```json\n{'a': 1}\n```\n") 0)
               {| Re.group1 := Some (lit "{'a': 1}") |} w);
      vm_compute; reflexivity.
Qed.

Lemma clean_json_output_fallback_path_witness :
  Json.loads (Some (lit "Sure, here is the result:\n```json\n{'a': 1}\n```\n"))
  = inl (Json.decode_error Json.ExpectingValue
           (lit "Sure, here is the result:\n```json\n{'a': 1}\n```\n") 0)
  /\ Re.search fence_pattern
       (lit "Sure, here is the result:\n```json\n{'a': 1}\n```\n")
     = Some {| Re.group1 := Some (lit "{'a': 1}") |}
  /\ calls (snd (clean_json_output
                   (Some (lit "Sure, here is the result:\n```json\n{'a': 1}\n```\n"))
                   idle_world))
     = [Call_json_loads
          (Some (lit "Sure, here is the result:\n```json\n{'a': 1}\n```\n"));
        Call_re_search
          (Some (lit "Sure, here is the result:\n```json\n{'a': 1}\n```\n"));
        Call_json_loads (Some (lit "{'a': 1}"))].
Proof.
  split; [vm_compute; reflexivity|]. split; [vm_compute; reflexivity|].
  refine (proj2 (proj1 clean_json_output_fallback_path
                   (lit "Sure, here is the result:\n```json\n{'a': 1}\n```\n")
                   (Json.decode_error Json.ExpectingValue
                      (lit "Sure, here is the result:\n```json\n{'a': 1}\n```\n") 0)
                   {| Re.group1 := Some (lit "{'a': 1}") |}
                   idle_world _ _ _)); vm_compute; reflexivity.
Defined.

(** C2 as stated fails on a text that opens with an integer literal of
    4301 digits: [json.loads] raises the [ValueError] of [int]'s digit
    limit, which is not a [JSONDecodeError]; the text holds a fenced
    block whose span parses, yet the search is not run and that
    [ValueError] is what the caller gets. *)
Lemma clean_json_output_fallback_not_tried :
  Json.loads (Some long_integer_text) = inl (Json.int_digits_error 4301)
  /\ isinstance (Json.int_digits_error 4301) JSONDecodeError = false
  /\ Re.search fence_pattern long_integer_text
     = Some {| Re.group1 := Some (py "{}") |}
  /\ Json.loads (Some (py "{}")) = inr (JObj [])
  /\ fst (clean_json_output (Some long_integer_text) idle_world)
     = inl (Json.int_digits_error 4301)
  /\ fst (clean_json_output (Some long_integer_text) idle_world)
     <> inr (JObj [])
  /\ calls (snd (clean_json_output (Some long_integer_text) idle_world))
     = [Call_json_loads (Some long_integer_text)].
Proof.
  assert (L : Json.loads (Some long_integer_text)
              = inl (Json.int_digits_error 4301))
    by (vm_compute; reflexivity).
  assert (C : isinstance (Json.int_digits_error 4301) JSONDecodeError = false)
    by reflexivity.
  split; [exact L|]. split; [exact C|].
  split; [vm_compute; reflexivity|]. split; [vm_compute; reflexivity|].
  rewrite (clean_json_output_uncaught (Some long_integer_text) _ idle_world L C).
  split; [reflexivity|]. split; [discriminate|reflexivity].
Qed.

(** A fenced object that runs over several lines. *)
Example clean_json_output_multiline :
  forall w,
    fst (clean_json_output
           (Some (lit "Result:\n```\n{\n  'a': 1,\n  'b': [true, null]\n}\n```"))
           w)
    = inr (JObj [(py "a", JInt 1); (py "b", JArr [JBool true; JNull])]).
Proof.
  intros w.
  rewrite (clean_json_output_fenced _
             (Json.decode_error Json.ExpectingValue
                (lit "Result:\n```\n{\n  'a': 1,\n  'b': [true, null]\n}\n```") 0)
             {| Re.group1 :=
                  Some (lit "{\n  'a': 1,\n  'b': [true, null]\n}") |} w);
    vm_compute; reflexivity.
Qed.

(** C3 (as the code has it).  When [json.loads] of the whole text
    raises a [JSONDecodeError]: if the text has no fenced block,
    [clean_json_output] raises [ValueError] with the message "The AI
    response could not be parsed as JSON."; if a block is found and
    [json.loads] of its span raises, that error is raised as it is.
    When [json.loads] of the whole text raises an error of another
    class, that error is raised as it is.  In every case an error
    reaches the caller.  The text "not json at all" gives the
    [ValueError] with the fixed message. *)
Theorem clean_json_output_failure (s : pystr) (e : exn) (w : World) :
  Json.loads (Some s) = inl e ->
  (isinstance e JSONDecodeError = true ->
   ((forall pre span, ~ fenced_object s pre span) ->
    fst (clean_json_output (Some s) w)
    = inl (Exn ValueError
             (py "The AI response could not be parsed as JSON.")))
   /\ (forall m e', Re.search fence_pattern s = Some m ->
                    Json.loads (Re.group1 m) = inl e' ->
                    fst (clean_json_output (Some s) w) = inl e'))
  /\ (isinstance e JSONDecodeError = false ->
      fst (clean_json_output (Some s) w) = inl e)
  /\ fst (clean_json_output (Some (py "not json at all")) w)
     = inl (Exn ValueError (py "The AI response could not be parsed as JSON.")).
Proof.
  intros H; split; [|split].
  - intros C; split.
    + intros NF. apply search_fence_none in NF.
      now rewrite (clean_json_output_unfenced s e w H C NF).
    + intros m e' S H'.
      now rewrite (clean_json_output_fenced s e m w H C S).
  - intros C. now rewrite (clean_json_output_uncaught (Some s) e w H C).
  - rewrite (clean_json_output_unfenced _
               (Json.decode_error Json.ExpectingValue
                  (py "not json at all") 0) w);
      [reflexivity|vm_compute; reflexivity|reflexivity
      |vm_compute; reflexivity].
Qed.

Lemma clean_json_output_failure_witness :
  Json.loads (Some (lit "```json\n{bad}\n```"))
  = inl (Json.decode_error Json.ExpectingValue (lit "```json\n{bad}\n```") 0)
  /\ fst (clean_json_output (Some (lit "```json\n{bad}\n```")) idle_world)
     = inl (Json.decode_error Json.ExpectingPropertyName (py "{bad}") 1).
Proof.
  split; [vm_compute; reflexivity|].
  refine (proj2 (proj1 (clean_json_output_failure
                   (lit "```json\n{bad}\n```")
                   (Json.decode_error Json.ExpectingValue
                      (lit "```json\n{bad}\n```") 0)
                   idle_world _) _)
            {| Re.group1 := Some (py "{bad}") |}
            (Json.decode_error Json.ExpectingPropertyName (py "{bad}") 1)
            _ _); vm_compute; reflexivity.
Defined.

(** C3 as stated fails on two texts.  On "not json at all" the error
    raised does not carry the message the claim gives; on a fenced block
    whose span does not parse the error is the decoder's own, with yet
    another message. *)
Lemma clean_json_output_failure_message :
  (exists e,
      fst (clean_json_output (Some (py "not json at all")) idle_world) = inl e
      /\ exn_str e = py "The AI response could not be parsed as JSON."
      /\ exn_str e <> py "the response could not be parsed as structured data")
  /\ (exists e,
         fst (clean_json_output (Some (lit "```json\n{bad}\n```")) idle_world)
         = inl e
         /\ exn_cls e = JSONDecodeError
         /\ exn_str e
            = py "Expecting property name enclosed in double quotes: line 1 column 2 (char 1)"
         /\ exn_str e
            <> py "the response could not be parsed as structured data").
Proof.
  split.
  - exists (Exn ValueError (py "The AI response could not be parsed as JSON.")).
    split; [vm_compute; reflexivity|].
    split; [vm_compute; reflexivity|].
    vm_compute; discriminate.
  - exists (Json.decode_error Json.ExpectingPropertyName (py "{bad}") 1).
    split; [vm_compute; reflexivity|].
    split; [vm_compute; reflexivity|].
    split; [vm_compute; reflexivity|].
    vm_compute; discriminate.
Qed.

(** C9. On the fenced text with an object nested one level deeper the
    lazy match runs on past the inner closing brace, which no fence
    follows: group 1 is the whole object and the result the whole
    mapping. *)
Theorem clean_json_output_nested_object (w : World) :
  Re.search fence_pattern (lit "```json\n{'a': {'b': 1}}\n```")
  = Some {| Re.group1 := Some (lit "{'a': {'b': 1}}") |}
  /\ clean_json_output (Some (lit "```json\n{'a': {'b': 1}}\n```")) w
     = (inr (JObj [(py "a", JObj [(py "b", JInt 1)])]),
        log (Call_json_loads (Some (lit "{'a': {'b': 1}}")))
          (log (Call_re_search (Some (lit "```json\n{'a': {'b': 1}}\n```")))
             (log (Call_json_loads (Some (lit "```json\n{'a': {'b': 1}}\n```")))
                w))).
Proof.
  split; [vm_compute; reflexivity|].
  rewrite (clean_json_output_fenced _
             (Json.decode_error Json.ExpectingValue
                (lit "```json\n{'a': {'b': 1}}\n```") 0)
             {| Re.group1 := Some (lit "{'a': {'b': 1}}") |} w);
    [|vm_compute; reflexivity|reflexivity|vm_compute; reflexivity].
  apply f_equal2; [vm_compute; reflexivity|reflexivity].
Qed.

(** ** Binary64 arithmetic of the latency *)

Open Scope Z_scope.

Lemma iter_pos_invariant {A : Type} (P : A -> Prop) (f : A -> A) :
  (forall x, P x -> P (f x)) ->
  forall p x, P x -> P (iter_pos f p x).
Proof.
  intros Hf; induction p as [p IH|p IH|]; intros x Hx; simpl; auto.
Qed.

Lemma shr_1_nonneg (mrs : shr_record) :
  0 <= shr_m mrs -> 0 <= shr_m (shr_1 mrs).
Proof.
  destruct mrs as [m r s]; simpl.
  destruct m as [|[p|p|]|[p|p|]]; simpl; lia.
Qed.

Lemma shr_nonneg (mrs : shr_record) (e n : Z) :
  0 <= shr_m mrs -> 0 <= shr_m (fst (shr mrs e n)).
Proof.
  intros H; unfold shr; destruct n; simpl; auto.
  apply (iter_pos_invariant (fun x => 0 <= shr_m x)); auto using shr_1_nonneg.
Qed.

Lemma shr_fexp_nonneg (prec emax m e : Z) (l : location) :
  0 <= m -> 0 <= shr_m (fst (shr_fexp prec emax m e l)).
Proof.
  intros H; unfold shr_fexp; apply shr_nonneg.
  destruct l as [|[| |]]; simpl; auto.
Qed.

Lemma round_nearest_even_nonneg (m : Z) (l : location) :
  0 <= m -> 0 <= round_nearest_even m l.
Proof.
  intros H; unfold round_nearest_even.
  destruct l as [|[| |]]; try lia. destruct (Z.even m); lia.
Qed.

Lemma binary_round_aux_sign (prec emax : Z) (sx : bool) (mx ex : Z)
      (lx : location) :
  0 <= mx ->
  match binary_round_aux prec emax sx mx ex lx with
  | S754_zero s | S754_finite s _ _ | S754_infinity s => s = sx
  | S754_nan => False
  end.
Proof.
  intros H; unfold binary_round_aux.
  pose proof (shr_fexp_nonneg prec emax mx ex lx H) as H1.
  destruct (shr_fexp prec emax mx ex lx) as [mrs' e']; simpl in H1.
  pose proof (shr_fexp_nonneg prec emax
                (round_nearest_even (shr_m mrs') (loc_of_shr_record mrs'))
                e' loc_Exact
                (round_nearest_even_nonneg _ _ H1)) as H2.
  destruct (shr_fexp prec emax _ e' loc_Exact) as [mrs'' e'']; simpl in H2.
  destruct (shr_m mrs''); [reflexivity| |lia].
  destruct (e'' <=? emax - prec); reflexivity.
Qed.

Lemma binary_round_sign (prec emax : Z) (sx : bool) (mx : positive) (ex : Z) :
  match binary_round prec emax sx mx ex with
  | S754_zero s | S754_finite s _ _ | S754_infinity s => s = sx
  | S754_nan => False
  end.
Proof.
  unfold binary_round. destruct (shl_align _ _ _) as [mz ez].
  apply binary_round_aux_sign; lia.
Qed.

Lemma sign_nonneg_iff (x : spec_float) :
  sign_nonneg x = true <->
  match x with
  | S754_zero s | S754_finite s _ _ | S754_infinity s => s = false
  | S754_nan => False
  end.
Proof. destruct x as [[|]|[|]| |[|] m e]; simpl; intuition congruence. Qed.

Lemma mul_millis_nonneg (x : spec_float) :
  sign_nonneg x = true -> sign_nonneg (Float.mul x (Float.of_Z 1000)) = true.
Proof.
  replace (Float.of_Z 1000) with (S754_finite false 8796093022208000 (-43))
    by (vm_compute; reflexivity).
  destruct x as [[|]|[|]| |[|] m e]; try discriminate; intros _;
    try reflexivity.
  unfold Float.mul, SFmul. apply sign_nonneg_iff.
  apply binary_round_aux_sign; simpl; lia.
Qed.

(** The mantissa of a float has as many bits as [digits2_pos] says. *)
Lemma digits2_pos_bounds (m : positive) :
  2 ^ (Zpos (digits2_pos m) - 1) <= Zpos m < 2 ^ Zpos (digits2_pos m).
Proof.
  induction m as [m IH|m IH|]; simpl digits2_pos;
    [| |simpl; lia];
    (assert (E : 2 ^ Zpos (digits2_pos m) = 2 * 2 ^ (Zpos (digits2_pos m) - 1))
      by (rewrite <- Z.pow_succ_r by lia; f_equal; lia);
     rewrite Pos2Z.inj_succ;
     replace (Z.succ (Zpos (digits2_pos m)) - 1) with (Zpos (digits2_pos m))
       by lia;
     rewrite Z.pow_succ_r by lia;
     set (X := 2 ^ Zpos (digits2_pos m)) in *;
     set (Y := 2 ^ (Zpos (digits2_pos m) - 1)) in *;
     clearbody X Y; lia).
Qed.

Lemma iter_xO_pow (d m : positive) :
  Zpos (Pos.iter xO m d) = Zpos m * 2 ^ Zpos d.
Proof.
  induction d as [|d IH] using Pos.peano_ind.
  - simpl. lia.
  - rewrite Pos.iter_succ, Pos2Z.inj_succ, Z.pow_succ_r by lia.
    rewrite Pos2Z.inj_xO, IH. lia.
Qed.

Lemma shl_align_value (m : positive) (e e' : Z) :
  e' <= e ->
  Zpos (fst (shl_align m e e')) = Zpos m * 2 ^ (e - e').
Proof.
  intros L; unfold shl_align.
  destruct (e' - e) as [|d|d] eqn:D; simpl fst.
  - replace (e - e') with 0 by lia. simpl; lia.
  - lia.
  - rewrite iter_xO_pow. replace (e - e') with (Zpos d) by lia. reflexivity.
Qed.

(** Two binary64 clock readings, the first not above the second: their
    difference is not negative. *)
Lemma sub_ordered_nonneg (t0 t1 : spec_float) :
  clock_reading t0 = true -> clock_reading t1 = true ->
  SFleb t0 t1 = true ->
  sign_nonneg (Float.sub t1 t0) = true.
Proof.
  unfold clock_reading; intros V0 V1 L.
  apply andb_prop in V0 as [V0 N0]; apply andb_prop in V1 as [V1 N1].
  destruct t0 as [[|]|[|]| |[|] m0 e0]; try discriminate;
    destruct t1 as [[|]|[|]| |[|] m1 e1]; try discriminate;
    try reflexivity.
  clear N0 N1. unfold Float.sub, SFsub. cbv zeta.
  apply sign_nonneg_iff.
  assert (D : 0 <= Zpos (fst (shl_align m1 e1 (Z.min e1 e0)))
                   - Zpos (fst (shl_align m0 e0 (Z.min e1 e0)))).
  { rewrite !shl_align_value by lia.
    unfold SFleb, SFcompare in L.
    simpl in V0, V1. unfold bounded, canonical_mantissa, fexp in V0, V1.
    apply andb_prop in V0 as [C0 _]; apply andb_prop in V1 as [C1 _].
    apply Z.eqb_eq in C0, C1.
    pose proof (digits2_pos_bounds m0) as B0.
    pose proof (digits2_pos_bounds m1) as B1.
    destruct (Z.compare_spec e0 e1) as [E|E|E]; try discriminate.
    - subst e1. rewrite Z.min_id, Z.sub_diag. rewrite Z.pow_0_r.
      destruct (Pos.compare_cont Eq m0 m1) eqn:C; try discriminate.
      + apply Pos.compare_eq in C; subst; lia.
      + change (m0 < m1)%positive in C. lia.
    - rewrite Z.min_r by lia. rewrite Z.sub_diag. rewrite Z.pow_0_r.
      unfold emin, Float.prec, Float.emax in *.
      change IntDef.Z.max with Z.max in *.
      assert (D1 : Zpos (digits2_pos m1) = 53) by lia.
      assert (D0 : Zpos (digits2_pos m0) <= 53) by lia.
      rewrite D1 in B1.
      assert (P0 : Zpos m0 < 2 ^ 53).
      { eapply Z.lt_le_trans; [apply B0|].
        apply Z.pow_le_mono_r; lia. }
      assert (P1 : 2 ^ 1 <= 2 ^ (e1 - e0)) by (apply Z.pow_le_mono_r; lia).
      change (2 ^ (53 - 1)) with 4503599627370496 in B1.
      change (2 ^ 53) with 9007199254740992 in *.
      change (2 ^ 1) with 2 in P1. nia. }
  unfold binary_normalize, cond_Zopp.
  destruct (_ - _) as [|p|p] eqn:E in D |- *; [reflexivity| |lia].
  apply binary_round_sign.
Qed.

(** Two ordered clock readings give an elapsed time that is finite and
    not negative, unless the product overflows. *)
Lemma elapsed_of_ordered_clock (t0 t1 : spec_float) :
  clock_reading t0 = true -> clock_reading t1 = true ->
  SFleb t0 t1 = true ->
  is_finite (Float.mul (Float.sub t1 t0) (Float.of_Z 1000)) = true ->
  elapsed_ok (Float.mul (Float.sub t1 t0) (Float.of_Z 1000)) = true.
Proof.
  intros V0 V1 L F.
  pose proof (mul_millis_nonneg _ (sub_ordered_nonneg t0 t1 V0 V1 L)) as S.
  destruct (Float.mul _ _) as [[|]|[|]| |[|] m e]; try discriminate;
    reflexivity.
Qed.

Close Scope Z_scope.

(** ** [check_rpc_status] *)

(** What the probe does on a configured URL, by what the network does. *)
Lemma check_rpc_status_run (u : pystr) (w : World) :
  u <> [] ->
  fst (check_rpc_status (Some u) w) =
  match network w (probe_request u) with
  | Responded st =>
      if Z.eqb st 200
      then inr (true,
                Float.format_0f
                  (Float.mul (Float.sub (clock w (S (reads w)))
                                        (clock w (reads w)))
                             (Float.of_Z 1000)) ++ py "ms")
      else inr (false, py "HTTP " ++ Str.of_Z st)
  | RequestRaised _ => inr (false, py "Connection Failed")
  end.
Proof.
  intros U; destruct u as [|c u]; [congruence|].
  unfold check_rpc_status, try_except, bind, time_time, requests_post; simpl.
  destruct (network w (probe_request (c :: u))) as [st|e]; simpl; [|reflexivity].
  destruct (Z.eqb st 200); reflexivity.
Qed.

Lemma check_rpc_status_calls (u : pystr) (w : World) :
  u <> [] ->
  calls (snd (check_rpc_status (Some u) w)) =
  calls w ++ [Call_time_time; Call_requests_post (probe_request u)]
          ++ match network w (probe_request u) with
             | Responded 200 => [Call_time_time]
             | _ => []
             end.
Proof.
  intros U; destruct u as [|c u]; [congruence|].
  unfold check_rpc_status, try_except, bind, time_time, requests_post; simpl.
  destruct (network w (probe_request (c :: u))) as [st|e]; simpl;
    [|now rewrite <- app_assoc].
  destruct (Z.eqb_spec st 200) as [->|NE]; simpl.
  - now rewrite <- !app_assoc.
  - rewrite <- app_assoc; simpl.
    destruct st as [|p|p]; try reflexivity.
    repeat (destruct p as [p|p|]; try reflexivity). congruence.
Qed.

(** C4 (as the code has it).  [check_rpc_status] never raises: for every
    URL and whatever the network does it returns a pair; and whenever the
    request raises, whatever the error, the pair is
    [(False, "Connection Failed")]. *)
Theorem check_rpc_status_never_raises (url : option pystr) (w : World) :
  (exists r, fst (check_rpc_status url w) = inr r)
  /\ (forall u e, url = Some u -> u <> [] ->
                  network w (probe_request u) = RequestRaised e ->
                  fst (check_rpc_status url w)
                  = inr (false, py "Connection Failed")).
Proof.
  split.
  - destruct url as [[|c u]|]; try (eexists; reflexivity).
    rewrite check_rpc_status_run by discriminate.
    destruct (network w (probe_request (c :: u))) as [st|e];
      [destruct (Z.eqb st 200)|]; eexists; reflexivity.
  - intros u e -> U N. rewrite (check_rpc_status_run u w U). now rewrite N.
Qed.

Lemma check_rpc_status_never_raises_witness :
  fst (check_rpc_status (Some (py "https://node.example"))
         (sample_world (S754_zero false) (S754_zero false)
            (RequestRaised connect_timeout)))
  = inr (false, py "Connection Failed").
Proof.
  refine (proj2 (check_rpc_status_never_raises
                   (Some (py "https://node.example"))
                   (sample_world (S754_zero false) (S754_zero false)
                      (RequestRaised connect_timeout)))
            (py "https://node.example") connect_timeout eq_refl _ eq_refl).
  vm_compute; discriminate.
Defined.

(** C4 as stated fails when the request times out: the detail returned
    is not the text the claim gives. *)
Lemma check_rpc_status_error_detail :
  fst (check_rpc_status (Some (py "https://node.example"))
         (sample_world (S754_zero false) (S754_zero false)
            (RequestRaised connect_timeout)))
  = inr (false, py "Connection Failed")
  /\ fst (check_rpc_status (Some (py "https://node.example"))
            (sample_world (S754_zero false) (S754_zero false)
               (RequestRaised connect_timeout)))
     <> inr (false, py "connection failed").
Proof.
  split; vm_compute; [reflexivity|discriminate].
Qed.

(** C5 (as the code has it).  With no URL, or an empty one,
    [check_rpc_status] returns [(False, "No URL Configured")] and leaves
    the world as it was: no clock reading, no request, no call logged. *)
Theorem check_rpc_status_no_url (w : World) :
  check_rpc_status None w = (inr (false, py "No URL Configured"), w)
  /\ check_rpc_status (Some []) w = (inr (false, py "No URL Configured"), w).
Proof. split; reflexivity. Qed.

(** C5 as stated fails on the empty URL: the detail returned is not the
    text the claim gives. *)
Lemma check_rpc_status_no_url_detail :
  fst (check_rpc_status (Some []) idle_world)
  = inr (false, py "No URL Configured")
  /\ fst (check_rpc_status (Some []) idle_world)
     <> inr (false, py "no endpoint configured").
Proof.
  split; vm_compute; [reflexivity|discriminate].
Qed.

(** Digits followed by [ms] have the expected shape. *)
Lemma latency_pattern_digits (ds : pystr) :
  ds <> [] -> forallb Str.is_digit ds = true ->
  Re.fullmatch latency_pattern (ds ++ py "ms") = true.
Proof.
  intros NE D. destruct ds as [|d ds]; [congruence|].
  simpl in D; apply andb_true_iff in D as [D1 D2].
  assert (M : Re.matches latency_pattern ([d] ++ ds ++ py "ms") None None).
  { unfold latency_pattern.
    apply Re.M_Cat with (g1 := None); [now constructor|].
    apply Re.M_Cat with (g1 := None); [now constructor|constructor]. }
  unfold Re.fullmatch.
  destruct (run_complete _ _ _ _ M []
              (fun s' _ => match s' with [] => Some tt | _ => None end)
              tt eq_refl) as [y Hy].
  rewrite app_nil_r in Hy; simpl in Hy |- *. now rewrite Hy.
Qed.

(** C6. When the endpoint answers with status 200, [check_rpc_status]
    returns [True] and the elapsed time between the two clock readings,
    in milliseconds, rounded to a whole number, followed by [ms]; the
    clock is read twice and one request is made.  When that elapsed time
    is a finite number that is not negative, the detail is made of
    digits followed by [ms]; and it is such a number whenever the two
    readings are ordered binary64 times and the product does not
    overflow. *)
Theorem check_rpc_status_online (u : pystr) (w : World) :
  u <> [] ->
  network w (probe_request u) = Responded 200 ->
  fst (check_rpc_status (Some u) w)
  = inr (true,
         Float.format_0f
           (Float.mul (Float.sub (clock w (S (reads w))) (clock w (reads w)))
                      (Float.of_Z 1000)) ++ py "ms")
  /\ calls (snd (check_rpc_status (Some u) w))
     = calls w ++ [Call_time_time; Call_requests_post (probe_request u);
                   Call_time_time]
  /\ (elapsed_ok (Float.mul (Float.sub (clock w (S (reads w)))
                                       (clock w (reads w)))
                            (Float.of_Z 1000)) = true ->
      exists detail,
        fst (check_rpc_status (Some u) w) = inr (true, detail)
        /\ Re.fullmatch latency_pattern detail = true)
  /\ (clock_reading (clock w (reads w)) = true ->
      clock_reading (clock w (S (reads w))) = true ->
      SFleb (clock w (reads w)) (clock w (S (reads w))) = true ->
      is_finite (Float.mul (Float.sub (clock w (S (reads w)))
                                      (clock w (reads w)))
                           (Float.of_Z 1000)) = true ->
      elapsed_ok (Float.mul (Float.sub (clock w (S (reads w)))
                                       (clock w (reads w)))
                            (Float.of_Z 1000)) = true).
Proof.
  intros U N.
  pose proof (check_rpc_status_run u w U) as R; rewrite N in R; simpl in R.
  split; [exact R|]. split; [|split].
  - rewrite (check_rpc_status_calls u w U), N. reflexivity.
  - intros OK. eexists; split; [exact R|].
    destruct (Float.mul _ _) as [[|]|[|]| |[|] m e]; try discriminate.
    + vm_compute; reflexivity.
    + simpl. apply latency_pattern_digits.
      * apply of_N_nonempty.
      * apply of_N_digits.
  - apply elapsed_of_ordered_clock.
Qed.

Lemma check_rpc_status_online_witness :
  fst (check_rpc_status (Some (py "https://node.example"))
         (sample_world (Float.of_decimal false 1700000000 0)
                       (Float.of_decimal false 1700000000842 (-3))
                       (Responded 200)))
  = inr (true, py "842ms")
  /\ exists detail,
       fst (check_rpc_status (Some (py "https://node.example"))
              (sample_world (Float.of_decimal false 1700000000 0)
                            (Float.of_decimal false 1700000000842 (-3))
                            (Responded 200)))
       = inr (true, detail)
       /\ Re.fullmatch latency_pattern detail = true.
Proof.
  destruct (check_rpc_status_online (py "https://node.example")
              (sample_world (Float.of_decimal false 1700000000 0)
                            (Float.of_decimal false 1700000000842 (-3))
                            (Responded 200))) as (R & _ & P & Q).
  - vm_compute; discriminate.
  - reflexivity.
  - split; [rewrite R; vm_compute; reflexivity|].
    apply P, Q; vm_compute; reflexivity.
Defined.

(** C7. When the endpoint answers with a status other than 200,
    [check_rpc_status] returns [False] and [HTTP] followed by the status
    code in decimal; status 500 gives [(False, "HTTP 500")]. *)
Theorem check_rpc_status_http_error (u : pystr) (st : Z) (w : World) :
  u <> [] ->
  st <> 200%Z ->
  network w (probe_request u) = Responded st ->
  fst (check_rpc_status (Some u) w) = inr (false, py "HTTP " ++ Str.of_Z st)
  /\ (st = 500%Z ->
      fst (check_rpc_status (Some u) w) = inr (false, py "HTTP 500")).
Proof.
  intros U NE N.
  pose proof (check_rpc_status_run u w U) as R; rewrite N in R.
  apply Z.eqb_neq in NE; rewrite NE in R.
  split; [exact R|]. intros ->; exact R.
Qed.

Lemma check_rpc_status_http_error_witness :
  fst (check_rpc_status (Some (py "https://node.example"))
         (sample_world (S754_zero false) (S754_zero false) (Responded 500)))
  = inr (false, py "HTTP 500").
Proof.
  refine (proj2 (check_rpc_status_http_error (py "https://node.example") 500
                   (sample_world (S754_zero false) (S754_zero false)
                      (Responded 500)) _ _ eq_refl) eq_refl).
  - vm_compute; discriminate.
  - discriminate.
Defined.

(** ** The severity cell *)

Lemma severity_cell_in_range (z : Z) (rest : list (pystr * json)) :
  (1 <= z <= 5)%Z ->
  exists label,
    In (z, label) sev_map
    /\ severity_cell ((py "severity", JInt z) :: rest) = inr label.
Proof.
  intros R.
  assert (C : (z = 1 \/ z = 2 \/ z = 3 \/ z = 4 \/ z = 5)%Z) by lia.
  unfold sev_map.
  destruct C as [E|[E|[E|[E|E]]]]; subst z;
    [exists (py "🔴 Critical")|exists (py "🟠 High")|exists (py "🟡 Medium")
    |exists (py "🔵 Low")|exists (py "⚪ Info")];
    (split; [|vm_compute; reflexivity]).
  - left; reflexivity.
  - right; left; reflexivity.
  - do 2 right; left; reflexivity.
  - do 3 right; left; reflexivity.
  - do 4 right; left; reflexivity.
Qed.

Lemma severity_cell_missing (report : list (pystr * json)) :
  Json.dict_get (py "severity") report = None ->
  severity_cell report = inr (py "🟡 Medium").
Proof.
  intros H; unfold severity_cell; rewrite H. vm_compute; reflexivity.
Qed.

(** C8 (where the code departs from it).  A report without a severity
    shows the label of level 3, but a report whose severity is the
    integer 7 shows the bare key [3], which is none of the five labels. *)
Theorem severity_cell_out_of_range :
  severity_cell [] = inr (py "🟡 Medium")
  /\ severity_cell [(py "severity", JInt 7)] = inr (py "3")
  /\ ~ In (py "3") (map snd sev_map).
Proof.
  split; [vm_compute; reflexivity|].
  split; [vm_compute; reflexivity|].
  vm_compute. intros [H|[H|[H|[H|[H|[]]]]]]; discriminate.
Qed.

(** Any integer outside 1..5 shows that bare key. *)
Lemma severity_cell_other_int (z : Z) (rest : list (pystr * json)) :
  (z < 1 \/ 5 < z)%Z ->
  severity_cell ((py "severity", JInt z) :: rest) = inr (py "3").
Proof.
  intros R. unfold severity_cell.
  replace (Json.dict_get (py "severity") ((py "severity", JInt z) :: rest))
    with (Some (JInt z)) by (vm_compute; reflexivity).
  unfold sev_map_get, sev_map, lookup, key_eqb.
  repeat match goal with
         | |- context [Z.eqb z ?k] =>
             destruct (Z.eqb_spec z k); [lia|]
         end.
  vm_compute; reflexivity.
Qed.

(** ** [analyze_issue] *)

(** C10. [analyze_issue] never raises.  Whatever error the body of its
    [try] block ends with (raised by the chat call, by reading the first
    choice, or by [clean_json_output] on a text it cannot parse) the
    result is the mapping with the single key [error] whose value is
    [str] of that error. *)
Theorem analyze_issue_never_raises (client : chat_client)
        (model_id desc logs : pystr) (w : World) :
  (exists v, fst (analyze_issue client model_id desc logs w) = inr v)
  /\ (forall e,
        fst (analysis_attempt client model_id desc logs w) = inl e ->
        fst (analyze_issue client model_id desc logs w)
        = inr (JObj [(py "error", JStr (exn_str e))]))
  /\ (forall e,
        client (analysis_request model_id desc logs) = ChatRaised e ->
        fst (analyze_issue client model_id desc logs w)
        = inr (JObj [(py "error", JStr (exn_str e))]))
  /\ (forall text rest e,
        client (analysis_request model_id desc logs)
        = Completed (Some text :: rest) ->
        fst (clean_json_output (Some text)
               (log (Call_chat_create (analysis_request model_id desc logs)) w))
        = inl e ->
        fst (analyze_issue client model_id desc logs w)
        = inr (JObj [(py "error", JStr (exn_str e))])).
Proof.
  assert (A : forall e,
             fst (analysis_attempt client model_id desc logs w) = inl e ->
             fst (analyze_issue client model_id desc logs w)
             = inr (JObj [(py "error", JStr (exn_str e))])).
  { intros e H. unfold analyze_issue, try_except.
    destruct (analysis_attempt client model_id desc logs w) as [[e'|v] w'];
      simpl in *; congruence. }
  split; [|split; [exact A|split]].
  - unfold analyze_issue, try_except.
    destruct (analysis_attempt client model_id desc logs w) as [[e'|v] w'];
      simpl; eexists; reflexivity.
  - intros e H. apply A.
    unfold analysis_attempt, bind, chat_create. now rewrite H.
  - intros text rest e H C. apply A.
    unfold analysis_attempt, bind, chat_create, index0, ret. rewrite H.
    destruct (clean_json_output _ _) as [[e'|v] w']; simpl in *; congruence.
Qed.

Lemma analyze_issue_never_raises_witness :
  fst (analyze_issue (fun _ => Completed [Some (py "not json at all")])
         (py "gpt-4.1-mini") (py "eth_call reverts") [] idle_world)
  = inr (JObj [(py "error",
                JStr (py "The AI response could not be parsed as JSON."))]).
Proof.
  etransitivity.
  - apply (proj2 (proj2 (proj2
             (analyze_issue_never_raises
                (fun _ => Completed [Some (py "not json at all")])
                (py "gpt-4.1-mini") (py "eth_call reverts") [] idle_world)))
             (py "not json at all") []
             (Exn ValueError
                (py "The AI response could not be parsed as JSON."))).
    + reflexivity.
    + vm_compute; reflexivity.
  - reflexivity.
Defined.

(** * Further properties of the helpers *)

(** ** [clean_json_output] beyond the three paths *)

(** X1. Where an error of [clean_json_output] comes from.  On a [str],
    an error it raises is an error of one of its [json.loads] calls,
    passed on as it is (that of the whole text when it is not a
    [JSONDecodeError], or that of the captured span), or else the
    [ValueError] with the fixed message, which is raised only after the
    whole text gave a [JSONDecodeError] and the search found nothing.
    No error of a library call is replaced by another one. *)
Theorem clean_json_output_error_origin (s : pystr) (e : exn) (w : World) :
  fst (clean_json_output (Some s) w) = inl e ->
  (Json.loads (Some s) = inl e /\ isinstance e JSONDecodeError = false)
  \/ (exists e0,
        Json.loads (Some s) = inl e0
        /\ isinstance e0 JSONDecodeError = true
        /\ ((Re.search fence_pattern s = None
             /\ e = Exn ValueError
                      (py "The AI response could not be parsed as JSON."))
            \/ (exists m,
                   Re.search fence_pattern s = Some m
                   /\ Json.loads (Re.group1 m) = inl e))).
Proof.
  destruct (Json.loads (Some s)) as [e0|v] eqn:L.
  - destruct (isinstance e0 JSONDecodeError) eqn:C.
    + destruct (Re.search fence_pattern s) as [m|] eqn:S.
      * rewrite (clean_json_output_fenced s e0 m w L C S); cbn [fst].
        intros H. right. exists e0. split; [reflexivity|]. split; [exact C|].
        right. exists m. split; [reflexivity|exact H].
      * rewrite (clean_json_output_unfenced s e0 w L C S); cbn [fst].
        intros H. injection H as <-.
        right. exists e0. split; [reflexivity|]. split; [exact C|].
        left. split; reflexivity.
    + rewrite (clean_json_output_uncaught (Some s) e0 w L C); cbn [fst].
      intros H. injection H as <-. left. split; [reflexivity|exact C].
  - rewrite (clean_json_output_direct s v w L); cbn [fst]. discriminate.
Qed.

Lemma clean_json_output_error_origin_witness :
  (Json.loads (Some long_integer_text) = inl (Json.int_digits_error 4301)
   /\ isinstance (Json.int_digits_error 4301) JSONDecodeError = false)
  \/ (exists e0,
        Json.loads (Some long_integer_text) = inl e0
        /\ isinstance e0 JSONDecodeError = true
        /\ ((Re.search fence_pattern long_integer_text = None
             /\ Json.int_digits_error 4301
                = Exn ValueError
                    (py "The AI response could not be parsed as JSON."))
            \/ (exists m,
                   Re.search fence_pattern long_integer_text = Some m
                   /\ Json.loads (Re.group1 m)
                      = inl (Json.int_digits_error 4301)))).
Proof.
  apply (clean_json_output_error_origin long_integer_text
           (Json.int_digits_error 4301) idle_world).
  vm_compute; reflexivity.
Defined.

(** What [clean_json_output] does to the world: between one and three
    calls logged, all of them [json.loads] or [re.search]; clock and
    network are not touched. *)
Lemma clean_json_output_footprint (t : option pystr) (w : World) :
  exists more,
    snd (clean_json_output t w) = logged w more
    /\ forallb is_parse_call more = true
    /\ (1 <= length more <= 3)%nat.
Proof.
  unfold clean_json_output, try_except, json_loads, bind, re_search, raise.
  destruct (Json.loads t) as [e|v]; simpl.
  - match goal with |- context [if ?b then _ else _] => destruct b end; simpl.
    + destruct t as [s|]; simpl.
      * destruct (Re.search fence_pattern s) as [m|]; simpl.
        -- exists [Call_json_loads (Some s); Call_re_search (Some s);
                   Call_json_loads (Re.group1 m)].
           unfold logged, log; simpl; rewrite <- !app_assoc; simpl.
           repeat split; lia.
        -- exists [Call_json_loads (Some s); Call_re_search (Some s)].
           unfold logged, log; simpl; rewrite <- !app_assoc; simpl.
           repeat split; lia.
      * exists [Call_json_loads None; Call_re_search None].
        unfold logged, log; simpl; rewrite <- !app_assoc; simpl.
        repeat split; lia.
    + exists [Call_json_loads t]. unfold logged, log; simpl.
      repeat split; lia.
  - exists [Call_json_loads t]. unfold logged, log; simpl.
    repeat split; lia.
Qed.

Lemma no_backtick_app (a b : pystr) :
  forallb (fun c => negb (c =? 96)) (a ++ b) = true ->
  forallb (fun c => negb (c =? 96)) a = true
  /\ forallb (fun c => negb (c =? 96)) b = true.
Proof. rewrite forallb_app; apply andb_prop. Qed.

(** A text without backtick cannot run into a fence. *)
Lemma no_backtick_before_fence (a x y : pystr) :
  forallb (fun c => negb (c =? 96)) a = true ->
  forall b, a ++ b = x ++ py "```" ++ y -> (length a <= length x)%nat.
Proof.
  intros NB b E.
  destruct (Nat.le_gt_cases (length a) (length x)) as [|L]; [assumption|].
  exfalso. apply app_eq_app in E as [l [[E1 E2]|[E1 E2]]].
  - subst a. destruct l as [|c l].
    + rewrite app_nil_r in L; lia.
    + simpl in E2. inversion E2; subst c.
      apply no_backtick_app in NB as [_ NB]. simpl in NB. discriminate.
  - subst x. rewrite length_app in L; lia.
Qed.

(** The search finds a fenced object at the first fence and up to the
    first closing brace that whitespace and a fence follow; with no
    backtick before the fence or inside the object, that is the object
    itself. *)
Lemma search_fence_exact (text prose tag ws1 body ws2 post : pystr)
      (m : Re.match_obj) :
  forallb (fun c => negb (c =? 96)) prose = true ->
  forallb (fun c => negb (c =? 96)) body = true ->
  tag = [] \/ tag = py "json" ->
  forallb Re.is_space ws1 = true ->
  forallb Re.is_space ws2 = true ->
  text = prose ++ py "```" ++ tag ++ ws1 ++ (py "{" ++ body ++ py "}")
               ++ ws2 ++ py "```" ++ post ->
  Re.search fence_pattern text = Some m ->
  Re.group1 m = Some (py "{" ++ body ++ py "}").
Proof.
  intros NP NB Ht W1 W2 Et S.
  assert (F : fenced_object text prose (py "{" ++ body ++ py "}")).
  { exists tag, ws1, body, ws2, post; repeat split; auto. }
  destruct (search_fence_some text m S) as (pre & span & G & F' & Left & Short).
  rewrite G. f_equal.
  pose proof (Left prose _ F) as LP.
  pose proof F' as (tag' & ws1' & body' & ws2' & post' & E' & Ht' & W1' & W2' & Sp).
  rewrite Et in E'.
  assert (PL : (length prose <= length pre)%nat).
  { eapply no_backtick_before_fence; eauto. }
  assert (EP : pre = prose).
  { apply app_eq_app in E' as [l [[E1 E2]|[E1 E2]]].
    - subst prose. rewrite length_app in PL.
      destruct l; [now rewrite app_nil_r|simpl in PL; lia].
    - subst pre. rewrite length_app in LP.
      destruct l; [now rewrite app_nil_r|simpl in LP; lia]. }
  subst pre.
  pose proof (Short _ F) as LS.
  apply app_inv_head in E'.
  apply app_inv_head with (l := py "```") in E'.
  rewrite Sp in E'. rewrite <- !app_assoc in E'.
  apply tag_then_spaces in E' as (_ & _ & E'); auto.
  assert (BL : (length body' <= length body)%nat).
  { rewrite Sp in LS. rewrite !length_app in LS. simpl in LS. lia. }
  assert (EB : body' = body).
  { apply app_eq_app in E' as [l [[E1 E2]|[E1 E2]]].
    - destruct l as [|c l]; [now rewrite app_nil_r in E1|].
      exfalso. subst body. rewrite length_app in BL; simpl in BL.
      simpl in E2. inversion E2 as [[Hc E3]]. clear E2.
      apply no_backtick_app in NB as [_ NB].
      assert (NL : forallb (fun c => negb (c =? 96)) l = true).
      { simpl in NB. now apply andb_prop in NB as [_ NB]. }
      pose proof (no_backtick_before_fence l ws2' post' NL _ (eq_sym E3)) as LL.
      symmetry in E3.
      apply app_eq_app in E3 as [l' [[E4 E5]|[E4 E5]]].
      + subst l. rewrite length_app in LL.
        destruct l'; [|simpl in LL; lia].
        rewrite app_nil_r in *. simpl in E5.
        destruct ws2' as [|c' ws2'']; simpl in E5; inversion E5.
      + subst ws2'. rewrite forallb_app in W2'.
        apply andb_prop in W2' as [_ W2'].
        destruct l' as [|c' l']; simpl in E5; inversion E5; subst.
        simpl in W2'. discriminate.
    - subst body'. rewrite length_app in BL.
      destruct l; [now rewrite app_nil_r|simpl in BL; lia]. }
  rewrite Sp, EB. reflexivity.
Qed.

(** X2. The fallback recovers a fenced object exactly: when
    [json.loads] of the whole text raises a [JSONDecodeError], nothing
    before the fence holds a backtick and the object between the fences
    holds none either, the result is what [json.loads] gives for that
    object, whatever follows the closing fence. *)
Theorem clean_json_output_recovers_fenced
        (prose tag ws1 body ws2 post : pystr) (e : exn) (w : World) :
  forallb (fun c => negb (c =? 96)) prose = true ->
  forallb (fun c => negb (c =? 96)) body = true ->
  tag = [] \/ tag = py "json" ->
  forallb Re.is_space ws1 = true ->
  forallb Re.is_space ws2 = true ->
  Json.loads (Some (prose ++ py "```" ++ tag ++ ws1
                          ++ (py "{" ++ body ++ py "}")
                          ++ ws2 ++ py "```" ++ post)) = inl e ->
  isinstance e JSONDecodeError = true ->
  fst (clean_json_output
         (Some (prose ++ py "```" ++ tag ++ ws1
                      ++ (py "{" ++ body ++ py "}")
                      ++ ws2 ++ py "```" ++ post)) w)
  = Json.loads (Some (py "{" ++ body ++ py "}")).
Proof.
  intros NP NB Ht W1 W2 L C.
  remember (prose ++ py "```" ++ tag ++ ws1 ++ (py "{" ++ body ++ py "}")
                  ++ ws2 ++ py "```" ++ post) as text eqn:Et.
  destruct (Re.search fence_pattern text) as [m|] eqn:S.
  - etransitivity;
      [exact (f_equal fst (clean_json_output_fenced text e m w L C S))|].
    cbn [fst].
    now rewrite (search_fence_exact text prose tag ws1 body ws2 post m
                   NP NB Ht W1 W2 Et S).
  - exfalso. apply (proj1 (search_fence_none text) S prose (py "{" ++ body ++ py "}")).
    exists tag, ws1, body, ws2, post; repeat split; auto.
Qed.

(** ** [analyze_issue]: what reaches the service and what comes back *)

(** X3. Log text beyond the first 5000 characters has no influence:
    the request sent, the result and the world are those of the logs cut
    to 5000 characters, and the user message is the description with 51
    characters of framing and at most 5000 characters of logs. *)
Theorem analyze_issue_log_truncated (client : chat_client)
        (model_id desc logs : pystr) (w : World) :
  analysis_request model_id desc logs
  = analysis_request model_id desc (firstn 5000 logs)
  /\ analyze_issue client model_id desc logs w
     = analyze_issue client model_id desc (firstn 5000 logs) w
  /\ length (user_content desc logs)
     = (51 + length desc + Nat.min 5000 (length logs))%nat.
Proof.
  assert (R : analysis_request model_id desc logs
              = analysis_request model_id desc (firstn 5000 logs)).
  { unfold analysis_request, user_content. now rewrite firstn_firstn. }
  split; [exact R|]. split.
  - unfold analyze_issue, analysis_attempt. now rewrite R.
  - unfold user_content. rewrite !length_app, length_firstn.
    change (length (lit "\n    [ISSUE DESCRIPTION]\n    ")) with 29%nat.
    change (length (lit "\n\n    [LOGS]\n    ")) with 17%nat.
    change (length (lit "\n    ")) with 5%nat.
    lia.
Qed.

(** What [analyze_issue] does to the world: the chat call, then the
    calls of [clean_json_output] if the first choice was reached. *)
Lemma analyze_issue_footprint (client : chat_client)
      (model_id desc logs : pystr) (w : World) :
  exists more,
    snd (analyze_issue client model_id desc logs w)
    = logged w (Call_chat_create (analysis_request model_id desc logs) :: more)
    /\ forallb is_parse_call more = true
    /\ (length more <= 3)%nat.
Proof.
  unfold analyze_issue, try_except, analysis_attempt, bind, chat_create.
  destruct (client (analysis_request model_id desc logs)) as [cs|e].
  - destruct cs as [|c cs]; unfold index0, raise, ret; cbn [caught snd].
    + exists []. unfold logged, log. repeat split. simpl; lia.
    + destruct (clean_json_output_footprint c
                  (log (Call_chat_create (analysis_request model_id desc logs)) w))
        as (more & E & P & L).
      exists more.
      destruct (clean_json_output c _) as [[e|v] w']; cbn [snd] in *;
        subst w'; (split; [|split; [exact P|lia]]);
        unfold logged, log; cbn [clock reads network calls];
        now rewrite <- app_assoc.
  - exists []. unfold logged, log, ret. cbn [caught snd]. repeat split.
    simpl; lia.
Qed.

(** X4. One invocation of [analyze_issue] makes exactly one chat call,
    the first thing it does, with the fixed request; the at most three
    calls that follow are [json.loads] and [re.search]; the clock is not
    read and nothing is posted.  There is no retry, whatever the service
    answers. *)
Theorem analyze_issue_one_chat_call (client : chat_client)
        (model_id desc logs : pystr) (w : World) :
  chat_calls (snd (analyze_issue client model_id desc logs w))
  = S (chat_calls w)
  /\ post_calls (snd (analyze_issue client model_id desc logs w))
     = post_calls w
  /\ reads (snd (analyze_issue client model_id desc logs w)) = reads w
  /\ exists more,
       calls (snd (analyze_issue client model_id desc logs w))
       = calls w
         ++ Call_chat_create (analysis_request model_id desc logs) :: more
       /\ forallb is_parse_call more = true
       /\ (length more <= 3)%nat.
Proof.
  destruct (analyze_issue_footprint client model_id desc logs w)
    as (more & E & P & L).
  rewrite E. unfold chat_calls, post_calls, logged; cbn [calls reads].
  assert (C : filter is_chat_call more = []).
  { clear -P. induction more as [|ev more IH]; [reflexivity|].
    simpl in P; apply andb_prop in P as [P1 P2].
    destruct ev; try discriminate; simpl; auto. }
  assert (Q : filter is_post_call more = []).
  { clear -P. induction more as [|ev more IH]; [reflexivity|].
    simpl in P; apply andb_prop in P as [P1 P2].
    destruct ev; try discriminate; simpl; auto. }
  rewrite !filter_app; cbn [filter is_chat_call is_post_call].
  rewrite C, Q, !length_app. cbn [length].
  split; [lia|]. split; [lia|]. split; [reflexivity|].
  exists more; auto.
Qed.

(** X5. What a completion gives.  With no choice at all the result
    is the error mapping of the [IndexError]; with a first choice whose
    content is [None], that of the [TypeError] of [json.loads]; with a
    text, what [clean_json_output] returns for it, or the error mapping
    of what it raises.  The choices after the first are never read. *)
Theorem analyze_issue_by_completion (client : chat_client)
        (model_id desc logs : pystr) (choices : list (option pystr))
        (w : World) :
  client (analysis_request model_id desc logs) = Completed choices ->
  fst (analyze_issue client model_id desc logs w)
  = match choices with
    | [] => inr (JObj [(py "error", JStr (py "list index out of range"))])
    | None :: _ =>
        inr (JObj [(py "error",
                    JStr (py "the JSON object must be str, bytes or bytearray, not NoneType"))])
    | Some text :: _ =>
        match fst (clean_json_output (Some text)
                     (log (Call_chat_create
                             (analysis_request model_id desc logs)) w)) with
        | inr v => inr v
        | inl e => inr (JObj [(py "error", JStr (exn_str e))])
        end
    end.
Proof.
  intros H. unfold analyze_issue, try_except, analysis_attempt, bind,
              chat_create.
  rewrite H. destruct choices as [|[text|] rest]; unfold index0, ret, raise.
  - reflexivity.
  - destruct (clean_json_output (Some text) _) as [[e|v] w']; reflexivity.
  - reflexivity.
Qed.

(** X6. The result does not tell a failure from an answer: when the
    body fails with an error whose text is [m], [analyze_issue] returns
    what it returns when the service genuinely answers with the JSON
    object that maps [error] to the string [m]. *)
Theorem analyze_issue_error_indistinguishable (client client' : chat_client)
        (model_id desc logs : pystr) (e : exn) (text : pystr)
        (rest : list (option pystr)) (w : World) :
  fst (analysis_attempt client model_id desc logs w) = inl e ->
  client' (analysis_request model_id desc logs)
  = Completed (Some text :: rest) ->
  Json.loads (Some text) = inr (JObj [(py "error", JStr (exn_str e))]) ->
  fst (analyze_issue client model_id desc logs w)
  = fst (analyze_issue client' model_id desc logs w).
Proof.
  intros F C L.
  unfold analyze_issue, try_except.
  destruct (analysis_attempt client model_id desc logs w) as [[e'|v] w1] eqn:A;
    simpl in F; [|discriminate].
  injection F as ->. cbn [caught ret fst].
  unfold analysis_attempt, bind, chat_create. rewrite C.
  unfold index0, ret.
  rewrite (clean_json_output_direct text _ _ L). reflexivity.
Qed.
Lemma clean_json_output_recovers_fenced_witness :
  fst (clean_json_output
         (Some (py "Here is the report: " ++ py "```" ++ py "json" ++ [10]
                   ++ (py "{" ++ lit "'a': 1" ++ py "}")
                   ++ [10] ++ py "```" ++ py " Anything else?"))
         idle_world)
  = Json.loads (Some (py "{" ++ lit "'a': 1" ++ py "}"))
  /\ Json.loads (Some (py "{" ++ lit "'a': 1" ++ py "}"))
     = inr (JObj [(py "a", JInt 1)]).
Proof.
  split; [|vm_compute; reflexivity].
  apply (clean_json_output_recovers_fenced
           (py "Here is the report: ") (py "json") [10] (lit "'a': 1") [10]
           (py " Anything else?")
           (Json.decode_error Json.ExpectingValue
              (py "Here is the report: " ++ py "```" ++ py "json" ++ [10]
                  ++ (py "{" ++ lit "'a': 1" ++ py "}")
                  ++ [10] ++ py "```" ++ py " Anything else?") 0)
           idle_world).
  - vm_compute; reflexivity.
  - vm_compute; reflexivity.
  - right; reflexivity.
  - vm_compute; reflexivity.
  - vm_compute; reflexivity.
  - vm_compute; reflexivity.
  - reflexivity.
Defined.

Lemma analyze_issue_by_completion_witness :
  fst (analyze_issue (fun _ => Completed [None; Some (py "{}")])
         (py "gpt-4.1-mini") (py "eth_call reverts") [] idle_world)
  = inr (JObj [(py "error",
                JStr (py "the JSON object must be str, bytes or bytearray, not NoneType"))]).
Proof.
  apply (analyze_issue_by_completion
           (fun _ => Completed [None; Some (py "{}")])
           (py "gpt-4.1-mini") (py "eth_call reverts") []
           [None; Some (py "{}")] idle_world).
  reflexivity.
Defined.

Lemma analyze_issue_error_indistinguishable_witness :
  fst (analyze_issue
         (fun _ => ChatRaised (Exn (LibraryError (py "openai.RateLimitError"))
                                   (py "quota exceeded")))
         (py "gpt-4.1-mini") (py "eth_call reverts") [] idle_world)
  = fst (analyze_issue
           (fun _ => Completed [Some (lit "{'error': 'quota exceeded'}")])
           (py "gpt-4.1-mini") (py "eth_call reverts") [] idle_world).
Proof.
  apply (analyze_issue_error_indistinguishable
           (fun _ => ChatRaised
                       (Exn (LibraryError (py "openai.RateLimitError"))
                            (py "quota exceeded")))
           (fun _ => Completed [Some (lit "{'error': 'quota exceeded'}")])
           (py "gpt-4.1-mini") (py "eth_call reverts") []
           (Exn (LibraryError (py "openai.RateLimitError"))
                (py "quota exceeded"))
           (lit "{'error': 'quota exceeded'}") [] idle_world).
  - reflexivity.
  - reflexivity.
  - vm_compute; reflexivity.
Defined.
(** ** [check_rpc_status]: flag, requests and latency text *)

(** X7. The flag says exactly whether the endpoint answered 200: for
    every argument [check_rpc_status] returns a pair, and its first
    component is [True] if and only if the URL is a non-empty text and
    the request to it was answered with status 200. *)
Theorem check_rpc_status_reachable_iff (url : option pystr) (w : World) :
  exists ok detail,
    fst (check_rpc_status url w) = inr (ok, detail)
    /\ (ok = true <->
        exists u, url = Some u /\ u <> []
                  /\ network w (probe_request u) = Responded 200).
Proof.
  destruct url as [[|c u]|].
  - exists false, (py "No URL Configured"). split; [reflexivity|].
    split; [discriminate|]. intros (u & E & N & _). congruence.
  - assert (NE : c :: u <> []) by discriminate.
    pose proof (check_rpc_status_run (c :: u) w NE) as R.
    destruct (network w (probe_request (c :: u))) as [st|e] eqn:N.
    + destruct (Z.eqb_spec st 200) as [->|D].
      * eexists true, _. split; [exact R|].
        split; [|reflexivity]. intros _. exists (c :: u). auto.
      * eexists false, _. split; [exact R|].
        split; [discriminate|]. intros (u' & E & _ & N').
        injection E as <-. congruence.
    + eexists false, _. split; [exact R|].
      split; [discriminate|]. intros (u' & E & _ & N').
      injection E as <-. congruence.
  - exists false, (py "No URL Configured"). split; [reflexivity|].
    split; [discriminate|]. intros (u & E & _). discriminate.
Qed.

(** X8. One request at most, and never a second: a call with a
    non-empty URL posts once, whatever the outcome (an error or a status
    other than 200 is not retried); any other call posts nothing.  No
    chat call is made and the network is left as it was. *)
Theorem check_rpc_status_posts_once (url : option pystr) (w : World) :
  post_calls (snd (check_rpc_status url w))
  = (post_calls w + match url with Some (_ :: _) => 1 | _ => 0 end)%nat
  /\ chat_calls (snd (check_rpc_status url w)) = chat_calls w
  /\ network (snd (check_rpc_status url w)) = network w.
Proof.
  destruct url as [[|c u]|]; try (cbn; repeat split; lia).
  unfold post_calls, chat_calls, check_rpc_status, try_except, bind,
    time_time, requests_post, ret.
  cbn [network log calls].
  destruct (network w (probe_request (c :: u))) as [st|e];
    [destruct (Z.eqb st 200)|];
    cbn [fst snd caught calls network log];
    rewrite ?filter_app, ?length_app; cbn; repeat split; lia.
Qed.

(** The latency text has the shape of digits followed by [ms] exactly
    when the elapsed time is finite and not negative. *)
Lemma latency_text_shape (lat : spec_float) :
  Re.fullmatch latency_pattern (Float.format_0f lat ++ py "ms")
  = elapsed_ok lat.
Proof.
  destruct lat as [[|]|[|]| |[|] m e]; try (vm_compute; reflexivity).
  cbn [Float.format_0f elapsed_ok Float.sign app].
  apply latency_pattern_digits; [apply of_N_nonempty|apply of_N_digits].
Qed.

(** X9. On status 200 the detail is digits followed by [ms] if and only
    if the elapsed time computed from the two clock readings is a finite
    number that is not negative: a wall clock set back during the
    request gives a detail with a minus sign. *)
Theorem check_rpc_status_latency_shape (u : pystr) (w : World) :
  u <> [] ->
  network w (probe_request u) = Responded 200 ->
  exists detail,
    fst (check_rpc_status (Some u) w) = inr (true, detail)
    /\ Re.fullmatch latency_pattern detail
       = elapsed_ok (Float.mul (Float.sub (clock w (S (reads w)))
                                          (clock w (reads w)))
                               (Float.of_Z 1000)).
Proof.
  intros U N.
  pose proof (check_rpc_status_run u w U) as R; rewrite N in R; simpl in R.
  eexists; split; [exact R|]. apply latency_text_shape.
Qed.

Lemma check_rpc_status_latency_shape_witness :
  exists detail,
    fst (check_rpc_status (Some (py "https://node.example"))
           (sample_world (Float.of_decimal false 1700000002 0)
                         (Float.of_decimal false 1700000001 0)
                         (Responded 200)))
    = inr (true, detail)
    /\ Re.fullmatch latency_pattern detail = false.
Proof.
  destruct (check_rpc_status_latency_shape (py "https://node.example")
              (sample_world (Float.of_decimal false 1700000002 0)
                            (Float.of_decimal false 1700000001 0)
                            (Responded 200)))
    as (detail & E & S).
  - vm_compute; discriminate.
  - reflexivity.
  - exists detail. split; [exact E|].
    etransitivity; [exact S|]. vm_compute; reflexivity.
Defined.
(** ** The severity cell, for every report *)

Lemma lookup_sev_map (k : json) (v : pystr) :
  lookup k sev_map = Some v -> In v (map snd sev_map).
Proof.
  unfold sev_map, lookup.
  repeat match goal with
         | |- context [key_eqb k ?i] => destruct (key_eqb k i)
         end; intros E; try discriminate; injection E as <-;
    cbn [map snd]; auto 10 using in_eq, in_cons.
Qed.

(** X10. Whatever the report holds, the severity cell shows one of the
    five labels or the bare text [3], and building the card fails only
    for a severity that is a list or a mapping (a [TypeError], as such a
    value cannot be looked up); a severity given as a string or as
    [null] always shows [3]. *)
Theorem severity_cell_total (report : list (pystr * json)) :
  match Json.dict_get (py "severity") report with
  | Some (JArr _) | Some (JObj _) =>
      exists e, severity_cell report = inl e /\ exn_cls e = TypeError
  | Some (JStr _) | Some JNull => severity_cell report = inr (py "3")
  | _ =>
      exists text,
        severity_cell report = inr text
        /\ (In text (map snd sev_map) \/ text = py "3")
  end.
Proof.
  unfold severity_cell.
  destruct (Json.dict_get (py "severity") report) as [v|].
  - destruct v; try (vm_compute; reflexivity);
      try (eexists; split; [reflexivity|reflexivity]);
      unfold sev_map_get;
      match goal with
      | |- context [lookup ?k sev_map] =>
          destruct (lookup k sev_map) as [l|] eqn:L
      end;
      eexists; (split; [reflexivity|]);
      solve [ left; exact (lookup_sev_map _ _ L)
            | right; vm_compute; reflexivity ].
  - exists (py "🟡 Medium"). split; [vm_compute; reflexivity|].
    left. vm_compute. auto 10.
Qed.
(** * The page script *)

(** ** Scripts that only draw *)

Lemma sbind_world {A B : Type} (c : Script A) (k : A -> Script B)
      (s : page_state) :
  (forall s, world (snd (c s)) = world s) ->
  (forall a s, world (snd (k a s)) = world s) ->
  world (snd (sbind c k s)) = world s.
Proof.
  intros C K. unfold sbind. specialize (C s).
  destruct (c s) as [[a| | |e] s']; cbn [snd] in *; try assumption.
  now rewrite K.
Qed.

Lemma write_steps_run (steps : list json) (s : page_state) :
  write_steps steps s
  = (Next tt,
     {| world := world s;
        ui := ui s ++ map (fun step => St_write [Text (py "- "); Shown step])
                          steps |}).
Proof.
  revert s; induction steps as [|x xs IH]; intros s.
  - cbn [write_steps map sret]. rewrite app_nil_r. now destruct s.
  - cbn [write_steps map]. unfold sbind, st. rewrite IH.
    unfold emit; cbn [world ui]. now rewrite <- app_assoc.
Qed.

Ltac draws_only :=
  repeat (intros;
          match goal with
          | |- world (snd (sbind _ _ _)) = _ => apply sbind_world
          | |- world (snd ((if ?b then _ else _) _)) = _ => destruct b
          | |- world (snd (eval ?r _)) = _ => destruct r; reflexivity
          | |- world (snd (write_steps _ _)) = _ =>
              rewrite write_steps_run; reflexivity
          | |- world (snd (st _ _)) = _ => reflexivity
          | |- world (snd (st_stop _)) = _ => reflexivity
          | |- world (snd (st_rerun _)) = _ => reflexivity
          | |- world (snd (sret _ _)) = _ => reflexivity
          end).

Lemma display_results_world (result : json) (s : page_state) :
  world (snd (display_results result s)) = world s.
Proof. unfold display_results. draws_only. Qed.

Lemma main_interface_world (s : page_state) :
  world (snd (main_interface s)) = world s.
Proof. unfold main_interface. draws_only. Qed.

Lemma page_setup_world (s : page_state) :
  world (snd (page_setup s)) = world s.
Proof. unfold page_setup. draws_only. Qed.

Lemma prepare_world (inp : page_inputs) (key : pystr) (s : page_state) :
  world (snd (prepare inp key s)) = world s.
Proof.
  unfold prepare. draws_only.
  - destruct (make_client inp key); draws_only.
  - destruct (uploaded_log inp) as [[e|t]|]; draws_only.
Qed.

(** The probe of a non-empty URL returns a pair. *)
Lemma check_rpc_status_never_fails (u : pystr) (w : World) :
  u <> [] ->
  exists ok detail, fst (check_rpc_status (Some u) w) = inr (ok, detail).
Proof.
  intros U. rewrite (check_rpc_status_run u w U).
  destruct (network w (probe_request u)) as [st|e];
    [destruct (Z.eqb st 200)|]; eexists _, _; reflexivity.
Qed.

(** ** The sidebar *)

(** X11. The health indicator of the sidebar, for every URL and
    network: with an empty URL one information line and no probe;
    otherwise green with the latency exactly when the endpoint answered
    200, red with the status or with [Connection Failed] in every other
    case.  It always goes on to the rest of the page, and the helper's
    [No URL Configured] is never shown. *)
Theorem infrastructure_status_shows (rpc_url : pystr) (s : page_state) :
  fst (infrastructure_status rpc_url s) = Next tt
  /\ ui (snd (infrastructure_status rpc_url s))
     = ui s
       ++ match rpc_url with
          | [] => [St_info (JStr (py "⚪ RPC URL Not Configured"))]
          | _ =>
              match network (world s) (probe_request rpc_url) with
              | Responded status =>
                  if Z.eqb status 200 then
                    [St_markdown [Text (py "🟢 **RPC Endpoint Online**")] false;
                     St_caption
                       (py "Latency: "
                        ++ Float.format_0f
                             (Float.mul
                                (Float.sub (clock (world s) (S (reads (world s))))
                                           (clock (world s) (reads (world s))))
                                (Float.of_Z 1000))
                        ++ py "ms")]
                  else
                    [St_markdown [Text (py "🔴 **RPC Endpoint Offline**")] false;
                     St_caption (py "Error: " ++ py "HTTP "
                                    ++ Str.of_Z status)]
              | RequestRaised _ =>
                  [St_markdown [Text (py "🔴 **RPC Endpoint Offline**")] false;
                   St_caption (py "Error: " ++ py "Connection Failed")]
              end
          end.
Proof.
  destruct rpc_url as [|c u]; [split; reflexivity|].
  assert (NE : c :: u <> []) by discriminate.
  pose proof (check_rpc_status_run (c :: u) (world s) NE) as R.
  unfold infrastructure_status, helper, sbind. cbn [nonempty].
  match goal with
  | |- context [let (r, w) := ?call in _] =>
      change (fst call = match network (world s) (probe_request (c :: u)) with
                      | Responded st =>
                          if Z.eqb st 200
                          then inr (true,
                                    Float.format_0f
                                      (Float.mul
                                         (Float.sub
                                            (clock (world s) (S (reads (world s))))
                                            (clock (world s) (reads (world s))))
                                         (Float.of_Z 1000)) ++ py "ms")
                          else inr (false, py "HTTP " ++ Str.of_Z st)
                      | RequestRaised _ => inr (false, py "Connection Failed")
                      end) in R;
      destruct call as [[e|[ok detail]] w']
  end;
    cbn [fst] in R;
    (destruct (network (world s) (probe_request (c :: u))) as [status|e'];
     [destruct (Z.eqb status 200)|]);
    try discriminate; injection R as -> ->;
    cbn [fst snd]; unfold st, emit; cbn [fst snd ui world];
    (split; [reflexivity|]); rewrite <- app_assoc; reflexivity.
Qed.

(** The indicator goes on, with the world the probe leaves. *)
Lemma infrastructure_status_world (rpc_url : pystr) (s : page_state) :
  exists more,
    infrastructure_status rpc_url s
    = (Next tt,
       {| world := if nonempty rpc_url
                   then snd (check_rpc_status (Some rpc_url) (world s))
                   else world s;
          ui := ui s ++ more |}).
Proof.
  unfold infrastructure_status.
  destruct rpc_url as [|c u]; cbn [nonempty].
  - eexists. reflexivity.
  - assert (NE : c :: u <> []) by discriminate.
    destruct (check_rpc_status_never_fails (c :: u) (world s) NE)
      as (ok & detail & R).
    unfold helper, sbind.
    match goal with
    | |- context [let (r, w) := ?call in _] =>
        change (fst call = inr (ok, detail)) in R;
        destruct call as [[e|a] w']
    end; cbn [fst snd] in *; [discriminate|].
    injection R as ->. cbn [fst snd].
    destruct ok; unfold st, emit; cbn [world ui]; rewrite <- app_assoc;
      eexists; reflexivity.
Qed.

(** What the sidebar leaves: the world after the probe, if one is made,
    and a rerun or the key. *)
Lemma sidebar_run (inp : page_inputs) (s : page_state) :
  fst (sidebar inp s)
  = (if refresh_clicked inp then Rerun else Next (api_key_of inp))
  /\ world (snd (sidebar inp s))
     = if nonempty (env_rpc_url inp)
       then snd (check_rpc_status (Some (env_rpc_url inp)) (world s))
       else world s.
Proof.
  unfold sidebar, api_key_of, sbind, st, sret, emit, st_rerun.
  destruct (nonempty (env_openai_key inp)); cbn [fst snd world ui];
    match goal with
    | |- context [infrastructure_status ?u ?s0] =>
        destruct (infrastructure_status_world u s0) as (more & E);
        rewrite E
    end;
    cbn [fst snd world ui];
    destruct (refresh_clicked inp); cbn [fst snd world ui]; split;
    reflexivity.
Qed.

(** ** Calls made by one run of the page *)

Lemma sbind_split {A B : Type} (c : Script A) (k : A -> Script B)
      (s : page_state) :
  sbind c k s
  = match fst (c s) with
    | Next a => k a (snd (c s))
    | Stopped => (Stopped, snd (c s))
    | Rerun => (Rerun, snd (c s))
    | Crashed e => (Crashed e, snd (c s))
    end.
Proof. unfold sbind. now destruct (c s) as [[a| | |e] s']. Qed.

Lemma helper_run {A : Type} (c : M A) (s : page_state) :
  helper c s
  = (match fst (c (world s)) with
     | inr a => Next a
     | inl e => Crashed (uncaught e)
     end,
     {| world := snd (c (world s)); ui := ui s |}).
Proof. unfold helper. now destruct (c (world s)) as [[e|a] w]. Qed.

Lemma parse_calls_not_counted (more : list event) :
  forallb is_parse_call more = true ->
  filter is_chat_call more = [] /\ filter is_post_call more = [].
Proof.
  induction more as [|ev more IH]; [split; reflexivity|].
  cbn [forallb]. intros P; apply andb_prop in P as [P1 P2].
  destruct (IH P2) as [C Q].
  destruct ev; try discriminate; cbn [filter is_chat_call is_post_call];
    auto.
Qed.

Lemma analyze_issue_counts (client : chat_client)
      (model_id desc logs : pystr) (w : World) :
  chat_calls (snd (analyze_issue client model_id desc logs w))
  = S (chat_calls w)
  /\ post_calls (snd (analyze_issue client model_id desc logs w))
     = post_calls w.
Proof.
  destruct (analyze_issue_footprint client model_id desc logs w)
    as (more & E & P & _).
  rewrite E. unfold chat_calls, post_calls, logged; cbn [calls].
  destruct (parse_calls_not_counted more P) as [C Q].
  rewrite !filter_app; cbn [filter is_chat_call is_post_call].
  rewrite C, Q, !length_app. cbn [length]. lia.
Qed.

Lemma check_rpc_status_counts (u : pystr) (w : World) :
  u <> [] ->
  post_calls (snd (check_rpc_status (Some u) w)) = S (post_calls w)
  /\ chat_calls (snd (check_rpc_status (Some u) w)) = chat_calls w.
Proof.
  intros U. destruct u as [|c u]; [congruence|].
  unfold post_calls, chat_calls, check_rpc_status, try_except, bind,
    time_time, requests_post, ret.
  cbn [network log calls].
  destruct (network w (probe_request (c :: u))) as [st|e];
    [destruct (Z.eqb st 200)|];
    cbn [fst snd caught calls network log];
    rewrite ?filter_app, ?length_app; cbn; split; lia.
Qed.

(** How far [prepare] gets, and that it only draws. *)
Lemma prepare_flow (inp : page_inputs) (key : pystr) (s : page_state) :
  fst (prepare inp key s)
  = if nonempty key then
      if negb (nonempty (issue_desc inp))
         && match uploaded_log inp with Some _ => false | None => true end
      then Stopped
      else
        match make_client inp key with
        | inl _ => Stopped
        | inr client =>
            match uploaded_log inp with
            | Some (inr text) => Next (client, text)
            | Some (inl e) => Crashed (uncaught e)
            | None => Next (client, [])
            end
        end
    else Stopped.
Proof.
  unfold prepare, sbind, st, st_stop, sret, eval, emit.
  destruct (nonempty key); [|reflexivity].
  destruct (nonempty (issue_desc inp));
    destruct (uploaded_log inp) as [[e|t]|]; cbn [negb andb fst snd];
    try reflexivity; destruct (make_client inp key); reflexivity.
Qed.

(** The world after [analyse] is the one [analyze_issue] leaves. *)
Lemma analyse_world (client : chat_client) (desc log_text : pystr)
      (s : page_state) :
  world (snd (analyse client desc log_text s))
  = snd (analyze_issue client (py "gpt-4.1-mini") desc log_text (world s)).
Proof.
  unfold analyse. rewrite sbind_split. cbn [st fst snd].
  rewrite sbind_split, !helper_run. cbn [fst snd emit world ui].
  destruct (fst (analyze_issue client (py "gpt-4.1-mini") desc log_text
                   (world s))) as [e|v]; cbn [snd world]; [reflexivity|].
  match goal with
  | |- world (snd (_ ?s0)) = ?w' => change w' with (world s0) at 2
  end.
  draws_only.
Qed.

Lemma run_analysis_counts (inp : page_inputs) (key : pystr) (s : page_state) :
  chat_calls (world (snd (run_analysis inp key s)))
  = (chat_calls (world s)
     + if nonempty key
          && (nonempty (issue_desc inp)
              || match uploaded_log inp with Some _ => true | None => false end)
          && match make_client inp key with inr _ => true | inl _ => false end
          && match uploaded_log inp with Some (inl _) => false | _ => true end
       then 1 else 0)%nat
  /\ post_calls (world (snd (run_analysis inp key s)))
     = post_calls (world s).
Proof.
  unfold run_analysis. rewrite sbind_split.
  pose proof (prepare_world inp key s) as W.
  rewrite (prepare_flow inp key s).
  assert (A : forall client log_text,
             chat_calls
               (world (snd (sbind (analyse client (issue_desc inp) log_text)
                              (fun result => display_results result)
                              (snd (prepare inp key s)))))
             = S (chat_calls (world s))
             /\ post_calls
                  (world (snd (sbind (analyse client (issue_desc inp) log_text)
                                 (fun result => display_results result)
                                 (snd (prepare inp key s)))))
                = post_calls (world s)).
  { intros client log_text.
    pose proof (analyse_world client (issue_desc inp) log_text
                  (snd (prepare inp key s))) as AW.
    rewrite W in AW.
    destruct (analyze_issue_counts client (py "gpt-4.1-mini")
                (issue_desc inp) log_text (world s)) as [C Q].
    rewrite sbind_split.
    destruct (fst (analyse client (issue_desc inp) log_text
                     (snd (prepare inp key s))));
      cbn [snd]; rewrite ?display_results_world, AW; auto. }
  destruct (nonempty key); cbn [andb];
    [|cbn [snd]; rewrite W; split; [lia|reflexivity]].
  destruct (nonempty (issue_desc inp));
    destruct (uploaded_log inp) as [[e|t]|];
    destruct (make_client inp key) as [e'|client];
    cbn [negb andb orb fst snd];
    try (rewrite W; split; [lia|reflexivity]);
    match goal with
    | |- context [analyse ?c _ ?l] => destruct (A c l) as [C Q]
    end;
    rewrite C, Q; (split; [lia|reflexivity]).
Qed.

Lemma page_counts (inp : page_inputs) (s : page_state) :
  chat_calls (world (snd (page inp s)))
  = (chat_calls (world s) + if reaches_analysis inp then 1 else 0)%nat
  /\ post_calls (world (snd (page inp s)))
     = (post_calls (world s)
        + if nonempty (env_rpc_url inp) then 1 else 0)%nat.
Proof.
  unfold page. rewrite sbind_split.
  change (fst (page_setup s)) with (@Next unit tt). cbv beta iota.
  rewrite sbind_split.
  destruct (sidebar_run inp (snd (page_setup s))) as [F W].
  rewrite page_setup_world in W. rewrite F.
  assert (P : chat_calls (world (snd (sidebar inp (snd (page_setup s)))))
              = chat_calls (world s)
              /\ post_calls (world (snd (sidebar inp (snd (page_setup s)))))
                 = (post_calls (world s)
                    + if nonempty (env_rpc_url inp) then 1 else 0)%nat).
  { rewrite W. destruct (env_rpc_url inp) as [|c u] eqn:U; cbn [nonempty].
    - split; [reflexivity|lia].
    - destruct (check_rpc_status_counts (c :: u) (world s)) as [Q C];
        [discriminate|].
      rewrite Q, C. split; [reflexivity|lia]. }
  destruct P as [C Q]. unfold reaches_analysis.
  destruct (refresh_clicked inp); cbn [negb andb snd].
  - rewrite andb_false_r. cbn [andb]. rewrite C, Q. split; lia.
  - rewrite andb_true_r, sbind_split.
    change (fst (main_interface (snd (sidebar inp (snd (page_setup s))))))
      with (@Next unit tt).
    cbv beta iota. rewrite sbind_split. cbn [st fst snd].
    destruct (analyse_clicked inp); cbn [andb sret snd emit world].
    + match goal with
      | |- context [run_analysis inp ?k ?s0] =>
          destruct (run_analysis_counts inp k s0) as [C' Q']
      end.
      rewrite C', Q'. cbn [emit world]. rewrite main_interface_world, C, Q.
      rewrite <- !andb_assoc. split; reflexivity.
    + rewrite main_interface_world, C, Q. split; lia.
Qed.

(** X12. Every run of the script probes the endpoint, whatever was
    clicked: with a URL in the environment one request is posted per
    run, also by a run that only redraws the page or that stops at a
    validation message; with none, no request is posted. *)
Theorem page_probes_every_run (inp : page_inputs) (w : World) :
  post_calls (world (snd (run_page inp w)))
  = (post_calls w + if nonempty (env_rpc_url inp) then 1 else 0)%nat.
Proof. exact (proj2 (page_counts inp {| world := w; ui := [] |})). Qed.

(** X13. One run makes at most one chat call, and makes it exactly
    when the analyse button was clicked, no refresh was asked, a key is
    present (from the environment, or typed in when the environment has
    none), there is a description or an uploaded file, the client could
    be built and the upload decoded. *)
Theorem page_chat_call_guard (inp : page_inputs) (w : World) :
  chat_calls (world (snd (run_page inp w)))
  = (chat_calls w + if reaches_analysis inp then 1 else 0)%nat.
Proof. exact (proj1 (page_counts inp {| world := w; ui := [] |})). Qed.

(** ** How a run ends *)

Lemma sbind_no_rerun {A B : Type} (c : Script A) (k : A -> Script B)
      (s : page_state) :
  (forall s, fst (c s) <> Rerun) ->
  (forall a s, fst (k a s) <> Rerun) ->
  fst (sbind c k s) <> Rerun.
Proof.
  intros C K. unfold sbind. specialize (C s).
  destruct (c s) as [[a| | |e] s']; cbn [fst] in *;
    try discriminate; [apply K|congruence].
Qed.

Ltac no_rerun :=
  repeat (intros;
          match goal with
          | |- fst (sbind _ _ _) <> Rerun => apply sbind_no_rerun
          | |- fst ((if ?b then _ else _) _) <> Rerun => destruct b
          | |- fst (eval ?r _) <> Rerun => destruct r; discriminate
          | |- fst (helper _ _) <> Rerun => rewrite helper_run; cbn [fst];
                                           match goal with
                                           | |- context [match ?x with _ => _ end] =>
                                               destruct x; discriminate
                                           end
          | |- fst (write_steps _ _) <> Rerun =>
              rewrite write_steps_run; discriminate
          | |- fst (display_results _ _) <> Rerun => unfold display_results
          | |- fst (analyse _ _ _ _) <> Rerun => unfold analyse
          | |- fst (st _ _) <> Rerun => discriminate
          | |- fst (st_stop _) <> Rerun => discriminate
          | |- fst (sret _ _) <> Rerun => discriminate
          end).

Lemma run_analysis_no_rerun (inp : page_inputs) (key : pystr)
      (s : page_state) :
  fst (run_analysis inp key s) <> Rerun.
Proof.
  unfold run_analysis. no_rerun.
  intros s0. rewrite prepare_flow.
  destruct (nonempty key); [|discriminate].
  destruct (_ && _); [discriminate|].
  destruct (make_client inp key); [discriminate|].
  destruct (uploaded_log inp) as [[e|t]|]; discriminate.
Qed.

(** X14. A run asks for a rerun if and only if the refresh button was
    clicked; the analysis never does, however it ends. *)
Theorem page_rerun_iff (inp : page_inputs) (w : World) :
  fst (run_page inp w) = Rerun <-> refresh_clicked inp = true.
Proof.
  unfold run_page, page. rewrite sbind_split.
  change (fst (page_setup {| world := w; ui := [] |})) with (@Next unit tt).
  cbv beta iota. rewrite sbind_split.
  destruct (sidebar_run inp (snd (page_setup {| world := w; ui := [] |})))
    as [F _].
  rewrite F. destruct (refresh_clicked inp).
  - split; reflexivity.
  - split; [|discriminate]. intros H. exfalso. revert H.
    match goal with |- ?x = Rerun -> False => change (x <> Rerun) end.
    no_rerun.
    + unfold main_interface. no_rerun.
    + apply run_analysis_no_rerun.
Qed.

(** ** What an analysis shows *)

(** When [prepare] goes on, it has drawn nothing. *)
Lemma prepare_next (inp : page_inputs) (key : pystr) (s : page_state)
      (ready : chat_client * pystr) :
  fst (prepare inp key s) = Next ready -> prepare inp key s = (Next ready, s).
Proof.
  unfold prepare, sbind, st, st_stop, sret, eval, emit.
  destruct (nonempty key); [|discriminate].
  destruct (nonempty (issue_desc inp));
    destruct (uploaded_log inp) as [[e|t]|]; cbn [negb andb fst snd];
    try discriminate; destruct (make_client inp key);
    cbn [fst]; intros E; try discriminate; now rewrite <- E.
Qed.

Lemma run_analysis_ready (inp : page_inputs) (key : pystr) (s : page_state)
      (client : chat_client) (log_text : pystr) :
  fst (prepare inp key s) = Next (client, log_text) ->
  run_analysis inp key s
  = sbind (analyse client (issue_desc inp) log_text)
          (fun result => display_results result) s.
Proof.
  intros P. unfold run_analysis. rewrite sbind_split.
  rewrite (prepare_next inp key s _ P). reflexivity.
Qed.

Lemma analyse_start (client : chat_client) (desc log_text : pystr)
      (s : page_state) (v : json) :
  fst (analyze_issue client (py "gpt-4.1-mini") desc log_text (world s))
  = inr v ->
  analyse client desc log_text s
  = sbind (eval (py_in (py "error") v))
      (fun failed =>
         sbind (if failed : bool then
                  st (Status_update (py "Analysis Failed") (py "error") None) ;;;
                  st (St_error (py "AI Error Occurred:")) ;;;
                  message <~ eval (py_item v (py "error")) ;;
                  st (St_code message None) ;;;
                  st_stop
                else
                  st (Status_update (py "Analysis Complete") (py "complete")
                        (Some false)))
               (fun _ => sret v))
      {| world := snd (analyze_issue client (py "gpt-4.1-mini") desc log_text
                         (world s));
         ui := ui s ++ [St_status (py "🤖 Analysing...")] |}.
Proof.
  intros R. unfold analyse.
  rewrite sbind_split. cbn [st fst snd].
  rewrite sbind_split, helper_run. cbn [fst snd emit world ui].
  rewrite R. reflexivity.
Qed.

(** X15. A result with an [error] key halts the run: the status
    container is marked failed, the value under [error] is shown as
    code, and the script stops; no result section is drawn.  This is so
    for the mapping [analyze_issue] makes of a failure and for a genuine
    answer that happens to hold an [error] key. *)
Theorem run_analysis_error_halts (inp : page_inputs) (key : pystr)
        (client : chat_client) (log_text : pystr)
        (kvs : list (pystr * json)) (message : json) (s : page_state) :
  fst (prepare inp key s) = Next (client, log_text) ->
  fst (analyze_issue client (py "gpt-4.1-mini") (issue_desc inp) log_text
         (world s))
  = inr (JObj kvs) ->
  Json.dict_get (py "error") kvs = Some message ->
  run_analysis inp key s
  = (Stopped,
     {| world := snd (analyze_issue client (py "gpt-4.1-mini")
                        (issue_desc inp) log_text (world s));
        ui := ui s ++ [St_status (py "🤖 Analysing...");
                       Status_update (py "Analysis Failed") (py "error") None;
                       St_error (py "AI Error Occurred:");
                       St_code message None;
                       St_stop] |}).
Proof.
  intros P R E.
  rewrite (run_analysis_ready inp key s client log_text P), sbind_split.
  rewrite (analyse_start client (issue_desc inp) log_text s _ R).
  unfold sbind, eval, py_in, py_item, st, st_stop, emit.
  rewrite E. cbn [fst snd world ui].
  rewrite <- !app_assoc. reflexivity.
Qed.

Lemma run_analysis_error_halts_witness :
  run_analysis
    (sample_inputs
       (fun _ => Completed
                   [Some (lit "{'error': 'none', 'analysis_summary': 'All fine.'}")]))
    (py "sk-test") blank_page
  = (Stopped,
     {| world :=
          snd (analyze_issue
                 (fun _ => Completed
                             [Some (lit "{'error': 'none', 'analysis_summary': 'All fine.'}")])
                 (py "gpt-4.1-mini") (py "eth_call reverts") [] idle_world);
        ui := [St_status (py "🤖 Analysing...");
               Status_update (py "Analysis Failed") (py "error") None;
               St_error (py "AI Error Occurred:");
               St_code (JStr (py "none")) None;
               St_stop] |}).
Proof.
  apply (run_analysis_error_halts
           (sample_inputs
              (fun _ => Completed
                          [Some (lit "{'error': 'none', 'analysis_summary': 'All fine.'}")]))
           (py "sk-test")
           (fun _ => Completed
                       [Some (lit "{'error': 'none', 'analysis_summary': 'All fine.'}")])
           []
           [(py "error", JStr (py "none"));
            (py "analysis_summary", JStr (py "All fine."))]
           (JStr (py "none")) blank_page).
  - reflexivity.
  - vm_compute; reflexivity.
  - vm_compute; reflexivity.
Defined.

(** X16. A result that is not a mapping never gets a result section:
    the run ends in a [TypeError] or an [AttributeError] (raised by the
    test for an [error] key, by reading it, or by the first [get]),
    except for the empty string and the empty list, after which nothing
    is drawn. *)
Theorem run_analysis_non_object (inp : page_inputs) (key : pystr)
        (client : chat_client) (log_text : pystr) (v : json)
        (s : page_state) :
  fst (prepare inp key s) = Next (client, log_text) ->
  fst (analyze_issue client (py "gpt-4.1-mini") (issue_desc inp) log_text
         (world s))
  = inr v ->
  (forall kvs, v <> JObj kvs) ->
  exists more,
    ui (snd (run_analysis inp key s)) = ui s ++ more
    /\ forallb (fun c => negb (shows_result c)) more = true
    /\ match fst (run_analysis inp key s) with
       | Next _ => v = JStr [] \/ v = JArr []
       | Crashed c =>
           crash_class c = py "TypeError"
           \/ crash_class c = py "AttributeError"
       | _ => False
       end.
Proof.
  intros P R NO.
  rewrite (run_analysis_ready inp key s client log_text P), sbind_split.
  rewrite (analyse_start client (issue_desc inp) log_text s _ R).
  destruct v as [|b|z|f|t|xs|kvs];
    try (eexists; unfold sbind, eval, py_in; cbn [fst snd ui];
         split; [reflexivity|split; [reflexivity|left; reflexivity]]).
  - (* a str *)
    unfold sbind at 2 3. unfold eval at 1. cbn [py_in].
    destruct (contains (py "error") t); [|destruct t as [|c t]];
      eexists;
      cbv [sbind st st_stop emit sret eval display_results py_item py_get
           truthy fst snd ui world];
      rewrite <- !app_assoc;
      (split; [reflexivity|split; [reflexivity|]]);
      solve [left; reflexivity | right; reflexivity].
  - (* a list *)
    unfold sbind at 2 3. unfold eval at 1. cbn [py_in].
    destruct (existsb _ xs); [|destruct xs as [|x xs]];
      eexists;
      cbv [sbind st st_stop emit sret eval display_results py_item py_get
           truthy fst snd ui world];
      rewrite <- !app_assoc;
      (split; [reflexivity|split; [reflexivity|]]);
      solve [left; reflexivity | right; reflexivity].
  - exfalso. exact (NO kvs eq_refl).
Qed.

(** ** The result sections *)

Lemma sbind_draws {A B : Type} (P : ui_call -> Prop) (c : Script A)
      (k : A -> Script B) (s : page_state) :
  (exists more, ui (snd (c s)) = ui s ++ more /\ Forall P more) ->
  (forall a s', c s = (Next a, s') ->
                exists more, ui (snd (k a s')) = ui s' ++ more /\ Forall P more) ->
  exists more, ui (snd (sbind c k s)) = ui s ++ more /\ Forall P more.
Proof.
  intros (m1 & E1 & F1) K. unfold sbind.
  destruct (c s) as [[a| | |e] s1]; cbn [snd] in *;
    try (exists m1; split; assumption).
  destruct (K a s1 eq_refl) as (m2 & E2 & F2).
  exists (m1 ++ m2). rewrite E2, E1, app_assoc. split; [reflexivity|].
  apply Forall_app; split; assumption.
Qed.

Lemma st_draws (P : ui_call -> Prop) (c : ui_call) (s : page_state) :
  P c -> exists more, ui (snd (st c s)) = ui s ++ more /\ Forall P more.
Proof. intros H. exists [c]. split; [reflexivity|]. now constructor. Qed.

Lemma quiet_draws {A : Type} (P : ui_call -> Prop) (f : flow A)
      (s : page_state) :
  exists more, ui (snd (f, s)) = ui s ++ more /\ Forall P more.
Proof. exists []. cbn [snd]. rewrite app_nil_r. split; [reflexivity|constructor]. Qed.

Lemma write_steps_draws (P : ui_call -> Prop) (steps : list json)
      (s : page_state) :
  (forall step, P (St_write [Text (py "- "); Shown step])) ->
  exists more, ui (snd (write_steps steps s)) = ui s ++ more /\ Forall P more.
Proof.
  intros H. rewrite write_steps_run. eexists; split; [reflexivity|].
  apply Forall_forall. intros x I. apply in_map_iff in I as (step & <- & _).
  apply H.
Qed.

(** X17. The download button is offered only for a mapping whose
    [script_required] and [python_script] are both truthy, with the
    value of [python_script] as its data, the label [Download Script]
    and the file name [fix.py]; no other path through the result
    sections makes that call. *)
Theorem download_button_only_if_required (result : json) (s : page_state)
        (label : pystr) (data : json) (file_name : pystr) :
  In (St_download_button label data file_name)
     (ui (snd (display_results result s))) ->
  ~ In (St_download_button label data file_name) (ui s) ->
  exists kvs required,
    result = JObj kvs
    /\ Json.dict_get (py "script_required") kvs = Some required
    /\ truthy required = true
    /\ Json.dict_get (py "python_script") kvs = Some data
    /\ truthy data = true
    /\ label = py "Download Script"
    /\ file_name = py "fix.py".
Proof.
  intros I NI.
  set (P := fun c : ui_call =>
              forall l d f, c = St_download_button l d f ->
                exists kvs required,
                  result = JObj kvs
                  /\ Json.dict_get (py "script_required") kvs = Some required
                  /\ truthy required = true
                  /\ Json.dict_get (py "python_script") kvs = Some d
                  /\ truthy d = true
                  /\ l = py "Download Script"
                  /\ f = py "fix.py").
  assert (D : exists more,
             ui (snd (display_results result s)) = ui s ++ more
             /\ Forall P more).
  { unfold display_results.
    destruct (truthy result); [|apply quiet_draws].
    destruct result as [|b|z|f|t|xs|kvs];
      try (eexists; cbv [sbind st emit eval py_get fst snd ui world];
           rewrite <- !app_assoc;
           split; [reflexivity|repeat constructor; discriminate]).
    remember (py "script_required") as k_required.
    remember (py "python_script") as k_script.
    repeat match goal with
           | |- exists more, ui (snd (sbind _ _ _)) = _ /\ _ =>
               apply sbind_draws; [|intros ? ? ?]
           | |- exists more, ui (snd (eval ?r _)) = _ /\ _ =>
               destruct r; apply quiet_draws
           | |- exists more, ui (snd (sret _ _)) = _ /\ _ =>
               apply quiet_draws
           | |- exists more, ui (snd (write_steps _ _)) = _ /\ _ =>
               apply write_steps_draws; discriminate
           | |- exists more, ui (snd ((if truthy ?x then _ else _) _)) = _ /\ _ =>
               destruct (truthy x) eqn:?
           | |- exists more, ui (snd (st (St_download_button _ _ _) _)) = _ /\ _ =>
               apply st_draws
           | |- exists more, ui (snd (st _ _)) = _ /\ _ =>
               apply st_draws; discriminate
           end.
    intros l d f E.
    repeat match goal with
           | H : st _ _ = _ |- _ => clear H
           | H : sbind _ _ _ = _ |- _ => clear H
           | H : (if _ then _ else _) _ = _ |- _ => clear H
           | H : eval (py_get _ _ (JStr _)) _ = _ |- _ => clear H
           | H : eval (py_get _ _ (JArr _)) _ = _ |- _ => clear H
           | H : eval (py_get _ _ (JObj _)) _ = _ |- _ => clear H
           end.
    injection E as El Ed Ef. subst l d f.
    repeat match goal with
           | H : eval (py_get _ _ JNull) _ = (Next _, _) |- _ =>
               unfold eval, py_get in H; injection H as <- _
           end.
    destruct (Json.dict_get k_required kvs) as [required|] eqn:G1;
      [|discriminate].
    destruct (Json.dict_get k_script kvs) as [script|] eqn:G2;
      [|discriminate].
    match goal with
    | H : eval (py_item _ _) ?s0 = (Next ?x, ?s1) |- context [Some ?x] =>
        unfold eval, py_item in H; rewrite G2 in H; injection H as <- _
    end.
    exists kvs, required. repeat split; assumption. }
  destruct D as (more & E & F). rewrite E in I.
  apply in_app_or in I as [I|I]; [contradiction|].
  rewrite Forall_forall in F. exact (F _ I _ _ _ eq_refl).
Qed.

Lemma download_button_only_if_required_witness :
  exists kvs required,
    JObj [(py "script_required", JBool true);
          (py "python_script", JStr (py "print(1)"))] = JObj kvs
    /\ Json.dict_get (py "script_required") kvs = Some required
    /\ truthy required = true
    /\ Json.dict_get (py "python_script") kvs = Some (JStr (py "print(1)"))
    /\ truthy (JStr (py "print(1)")) = true
    /\ py "Download Script" = py "Download Script"
    /\ py "fix.py" = py "fix.py".
Proof.
  apply (download_button_only_if_required
           (JObj [(py "script_required", JBool true);
                  (py "python_script", JStr (py "print(1)"))])
           blank_page (py "Download Script") (JStr (py "print(1)"))
           (py "fix.py")).
  - vm_compute. do 5 right. left. reflexivity.
  - vm_compute. intros [].
Defined.

(** X18. Every field of a result is optional.  A mapping with none of
    the five recognised keys gets the summary section alone, with the
    text [No summary returned.]: no steps, no card, no script; and the
    empty mapping gets nothing at all. *)
Theorem display_results_defaults (kvs : list (pystr * json))
        (s : page_state) :
  kvs <> [] ->
  Json.dict_get (py "analysis_summary") kvs = None ->
  Json.dict_get (py "suggested_steps") kvs = None ->
  Json.dict_get (py "bug_report") kvs = None ->
  Json.dict_get (py "script_required") kvs = None ->
  display_results (JObj kvs) s
  = (Next tt,
     {| world := world s;
        ui := ui s ++ [St_divider;
                       St_subheader (py "🔍 Root Cause Analysis");
                       St_info (JStr (py "No summary returned."))] |})
  /\ display_results (JObj []) s = (Next tt, s).
Proof.
  intros NE H1 H2 H3 H4. split; [|reflexivity].
  destruct kvs as [|kv kvs']; [congruence|].
  unfold display_results, py_get. cbn [truthy].
  rewrite H1, H2, H3, H4.
  cbv [sbind st emit sret eval truthy fst snd ui world].
  rewrite <- !app_assoc. reflexivity.
Qed.

Lemma display_results_defaults_witness :
  display_results (JObj [(py "note", JStr (py "nothing to report"))])
    blank_page
  = (Next tt,
     {| world := world blank_page;
        ui := ui blank_page
              ++ [St_divider;
                  St_subheader (py "🔍 Root Cause Analysis");
                  St_info (JStr (py "No summary returned."))] |})
  /\ display_results (JObj []) blank_page = (Next tt, blank_page).
Proof.
  apply (display_results_defaults
           [(py "note", JStr (py "nothing to report"))] blank_page).
  - discriminate.
  - vm_compute; reflexivity.
  - vm_compute; reflexivity.
  - vm_compute; reflexivity.
  - vm_compute; reflexivity.
Defined.

Lemma sbind_st {B : Type} (c : ui_call) (k : unit -> Script B)
      (s : page_state) :
  sbind (st c) k s = k tt (emit c s).
Proof. reflexivity. Qed.

Lemma sbind_eval {A B : Type} (r : crash + A) (k : A -> Script B)
      (s : page_state) :
  sbind (eval r) k s
  = match r with
    | inr a => k a s
    | inl c => (Crashed c, s)
    end.
Proof. now destruct r. Qed.

(** X19. The remediation steps are written one line per item of
    whatever [suggested_steps] holds: per element of a list, per key of
    a mapping, per character of a string; a truthy value that cannot be
    iterated (a number, [true]) ends the run in a [TypeError] once the
    expander is drawn. *)
Theorem display_results_steps (kvs : list (pystr * json)) (steps : json)
        (s : page_state) :
  Json.dict_get (py "suggested_steps") kvs = Some steps ->
  truthy steps = true ->
  match py_iter steps with
  | inr items =>
      exists after,
        ui (snd (display_results (JObj kvs) s))
        = ui s
          ++ [St_divider;
              St_subheader (py "🔍 Root Cause Analysis");
              St_info (match Json.dict_get (py "analysis_summary") kvs with
                       | Some v => v
                       | None => JStr (py "No summary returned.")
                       end);
              St_expander (py "✅ Remediation Steps")]
          ++ map (fun step => St_write [Text (py "- "); Shown step]) items
          ++ after
  | inl c =>
      display_results (JObj kvs) s
      = (Crashed c,
         {| world := world s;
            ui := ui s
                  ++ [St_divider;
                      St_subheader (py "🔍 Root Cause Analysis");
                      St_info (match Json.dict_get (py "analysis_summary") kvs with
                               | Some v => v
                               | None => JStr (py "No summary returned.")
                               end);
                      St_expander (py "✅ Remediation Steps")] |})
  end.
Proof.
  intros G T.
  destruct kvs as [|kv kvs']; [discriminate|].
  unfold display_results. cbn [truthy].
  remember (kv :: kvs') as kvs eqn:K. clear K kv kvs'.
  destruct (py_iter steps) as [c|items] eqn:PI;
    unfold py_get at 1 2; rewrite G;
    rewrite !sbind_st, sbind_eval, sbind_st, sbind_eval, T;
    cbv beta iota; rewrite sbind_split, sbind_st, sbind_eval, PI.
  - unfold emit. cbn [fst snd ui world].
    rewrite <- !app_assoc. reflexivity.
  - rewrite write_steps_run. cbn [fst snd].
    match goal with
    | |- exists after, ui (snd (sbind ?c ?k ?s0)) = _ =>
        assert (D : exists more,
                   ui (snd (sbind c k s0)) = ui s0 ++ more
                   /\ Forall (fun _ => True) more)
    end.
    { repeat match goal with
             | |- exists more, ui (snd (sbind _ _ _)) = _ /\ _ =>
                 apply sbind_draws; [|intros ? ? _]
             | |- exists more, ui (snd (eval ?r _)) = _ /\ _ =>
                 destruct r; apply quiet_draws
             | |- exists more, ui (snd (sret _ _)) = _ /\ _ =>
                 apply quiet_draws
             | |- exists more, ui (snd ((if ?b then _ else _) _)) = _ /\ _ =>
                 destruct b
             | |- exists more, ui (snd (st _ _)) = _ /\ _ =>
                 apply st_draws; exact I
             end. }
    destruct D as (more & E & _). exists more. rewrite E.
    unfold emit. cbn [ui world]. rewrite <- !app_assoc. reflexivity.
Qed.

Lemma display_results_steps_witness :
  exists after,
    ui (snd (display_results
               (JObj [(py "suggested_steps", JStr (py "ab"))]) blank_page))
    = ui blank_page
      ++ [St_divider;
          St_subheader (py "🔍 Root Cause Analysis");
          St_info (match Json.dict_get (py "analysis_summary")
                           [(py "suggested_steps", JStr (py "ab"))] with
                   | Some v => v
                   | None => JStr (py "No summary returned.")
                   end);
          St_expander (py "✅ Remediation Steps")]
      ++ map (fun step => St_write [Text (py "- "); Shown step])
             (map (fun c => JStr [c]) (py "ab"))
      ++ after.
Proof.
  pose proof (display_results_steps
                [(py "suggested_steps", JStr (py "ab"))] (JStr (py "ab"))
                blank_page) as H.
  cbv beta iota delta [py_iter] in H.
  apply H; vm_compute; reflexivity.
Defined.

(** X20. When the body of [analyze_issue] fails (the chat call raises,
    there is no choice, the content is [None] or cannot be parsed) the
    page shows [str] of that error, verbatim, as code under
    [AI Error Occurred:], marks the status container failed and stops. *)
Theorem run_analysis_shows_failure (inp : page_inputs) (key : pystr)
        (client : chat_client) (log_text : pystr) (e : exn)
        (s : page_state) :
  fst (prepare inp key s) = Next (client, log_text) ->
  fst (analysis_attempt client (py "gpt-4.1-mini") (issue_desc inp) log_text
         (world s))
  = inl e ->
  fst (run_analysis inp key s) = Stopped
  /\ ui (snd (run_analysis inp key s))
     = ui s ++ [St_status (py "🤖 Analysing...");
                Status_update (py "Analysis Failed") (py "error") None;
                St_error (py "AI Error Occurred:");
                St_code (JStr (exn_str e)) None;
                St_stop].
Proof.
  intros P F.
  assert (R : fst (analyze_issue client (py "gpt-4.1-mini") (issue_desc inp)
                     log_text (world s))
              = inr (JObj [(py "error", JStr (exn_str e))])).
  { unfold analyze_issue, try_except.
    destruct (analysis_attempt client (py "gpt-4.1-mini") (issue_desc inp)
                log_text (world s)) as [[e'|v] w']; cbn [fst] in F;
      [|discriminate].
    injection F as ->. reflexivity. }
  rewrite (run_analysis_ready inp key s client log_text P), sbind_split.
  rewrite (analyse_start client (issue_desc inp) log_text s _ R).
  assert (G : Json.dict_get (py "error") [(py "error", JStr (exn_str e))]
              = Some (JStr (exn_str e))) by (vm_compute; reflexivity).
  unfold sbind, eval, py_in, py_item, st, st_stop, emit.
  rewrite G. cbn [fst snd world ui].
  rewrite <- !app_assoc. split; reflexivity.
Qed.

Lemma run_analysis_shows_failure_witness :
  fst (run_analysis
         (sample_inputs
            (fun _ => ChatRaised
                        (Exn (LibraryError (py "openai.AuthenticationError"))
                             (py "Incorrect API key provided"))))
         (py "sk-test") blank_page)
  = Stopped
  /\ ui (snd (run_analysis
                (sample_inputs
                   (fun _ => ChatRaised
                               (Exn (LibraryError
                                       (py "openai.AuthenticationError"))
                                    (py "Incorrect API key provided"))))
                (py "sk-test") blank_page))
     = ui blank_page
       ++ [St_status (py "🤖 Analysing...");
           Status_update (py "Analysis Failed") (py "error") None;
           St_error (py "AI Error Occurred:");
           St_code (JStr (exn_str
                            (Exn (LibraryError
                                    (py "openai.AuthenticationError"))
                                 (py "Incorrect API key provided")))) None;
           St_stop].
Proof.
  apply (run_analysis_shows_failure
           (sample_inputs
              (fun _ => ChatRaised
                          (Exn (LibraryError (py "openai.AuthenticationError"))
                               (py "Incorrect API key provided"))))
           (py "sk-test")
           (fun _ => ChatRaised
                       (Exn (LibraryError (py "openai.AuthenticationError"))
                            (py "Incorrect API key provided")))
           []
           (Exn (LibraryError (py "openai.AuthenticationError"))
                (py "Incorrect API key provided"))
           blank_page).
  - reflexivity.
  - reflexivity.
Defined.

Lemma run_analysis_non_object_witness :
  exists more,
    ui (snd (run_analysis
               (sample_inputs (fun _ => Completed [Some (py "[1, 2]")]))
               (py "sk-test") blank_page))
    = ui blank_page ++ more
    /\ forallb (fun c => negb (shows_result c)) more = true
    /\ match fst (run_analysis
                    (sample_inputs (fun _ => Completed [Some (py "[1, 2]")]))
                    (py "sk-test") blank_page) with
       | Next _ => JArr [JInt 1; JInt 2] = JStr []
                   \/ JArr [JInt 1; JInt 2] = JArr []
       | Crashed c =>
           crash_class c = py "TypeError"
           \/ crash_class c = py "AttributeError"
       | _ => False
       end.
Proof.
  apply (run_analysis_non_object
           (sample_inputs (fun _ => Completed [Some (py "[1, 2]")]))
           (py "sk-test") (fun _ => Completed [Some (py "[1, 2]")]) []
           (JArr [JInt 1; JInt 2]) blank_page).
  - reflexivity.
  - vm_compute; reflexivity.
  - discriminate.
Defined.

(** X21. A result that is a mapping without an [error] key is handed
    to the result sections as it came back: the status container is
    marked complete and collapsed, and what follows is exactly what
    [display_results] draws for that mapping. *)
Theorem run_analysis_success (inp : page_inputs) (key : pystr)
        (client : chat_client) (log_text : pystr)
        (kvs : list (pystr * json)) (s : page_state) :
  fst (prepare inp key s) = Next (client, log_text) ->
  fst (analyze_issue client (py "gpt-4.1-mini") (issue_desc inp) log_text
         (world s))
  = inr (JObj kvs) ->
  Json.dict_get (py "error") kvs = None ->
  run_analysis inp key s
  = display_results (JObj kvs)
      {| world := snd (analyze_issue client (py "gpt-4.1-mini")
                         (issue_desc inp) log_text (world s));
         ui := ui s ++ [St_status (py "🤖 Analysing...");
                        Status_update (py "Analysis Complete")
                          (py "complete") (Some false)] |}.
Proof.
  intros P R E.
  rewrite (run_analysis_ready inp key s client log_text P), sbind_split.
  rewrite (analyse_start client (issue_desc inp) log_text s _ R).
  unfold py_in. rewrite E, sbind_eval, sbind_st.
  unfold sret, emit. cbn [fst snd world ui].
  rewrite <- !app_assoc. reflexivity.
Qed.

Lemma run_analysis_success_witness :
  run_analysis
    (sample_inputs
       (fun _ => Completed [Some (lit "{'analysis_summary': 'Nonce too low.'}")]))
    (py "sk-test") blank_page
  = display_results (JObj [(py "analysis_summary", JStr (py "Nonce too low."))])
      {| world :=
           snd (analyze_issue
                  (fun _ => Completed
                              [Some (lit "{'analysis_summary': 'Nonce too low.'}")])
                  (py "gpt-4.1-mini")
                  (issue_desc
                     (sample_inputs
                        (fun _ => Completed
                                    [Some (lit "{'analysis_summary': 'Nonce too low.'}")])))
                  [] (world blank_page));
         ui := ui blank_page
               ++ [St_status (py "🤖 Analysing...");
                   Status_update (py "Analysis Complete") (py "complete")
                     (Some false)] |}.
Proof.
  apply (run_analysis_success
           (sample_inputs
              (fun _ => Completed
                          [Some (lit "{'analysis_summary': 'Nonce too low.'}")]))
           (py "sk-test")
           (fun _ => Completed
                       [Some (lit "{'analysis_summary': 'Nonce too low.'}")])
           [] [(py "analysis_summary", JStr (py "Nonce too low."))]
           blank_page).
  - reflexivity.
  - vm_compute; reflexivity.
  - vm_compute; reflexivity.
Defined.
